(** * Session lifecycle supervisor of the WhatsApp HTTP gateway

    A shallow embedding of [ClientManager.js] (the token-indexed session
    registry with its lifecycle handlers and state-gated sends) and of the
    request handlers of [index.js] that the specification talks about.

    Conventions.
    - A JS [Map] keyed by token is a [gmap string _].
    - [undefined]/[null] results are [None]; the JS idiom [x || d] is
      written out with the falsiness test of strings ([""] is falsy).
    - Methods that throw, call the underlying client, touch the file system
      or log run in the monad [M]: a state monad over [World] that can
      throw.  External actions are recorded, in program order, in the
      world's [trace], each with the registry as it stood when the action
      was issued.
    - Outcomes decided outside the program (does [destroy] reject, does
      [rmSync] throw, ...) come from an [Env].
    - Tokens and request fields are strings.  The handlers are embedded for
      requests whose JSON fields are strings or absent; a field sent as a
      JSON number, array or object is a different [Map] key and a different
      receiver of [.includes], and is not covered here. *)

From Stdlib Require Import Ascii.
From stdpp Require Import gmap strings list.

Open Scope string_scope.
Open Scope nat_scope.

(** ** Strings: [String.prototype.includes], recipient ids, E.164 check *)

(** [hay.includes(needle)]: [needle] occurs in [hay] as a contiguous
    substring. *)
Fixpoint includes (needle hay : string) : bool :=
  String.prefix needle hay ||
  match hay with
  | EmptyString => false
  | String _ rest => includes needle rest
  end.

(** The routing suffix of an individual chat. *)
Definition routing_suffix : string := "@c.us".

(** [sendText]/[sendImage]:
    [const chatId = number.includes('@c.us') ? number : `${number}@c.us`] *)
Definition chatId (number : string) : string :=
  if includes routing_suffix number then number else number +:+ routing_suffix.

(** Character classes of the regular expression. *)
Definition is_digit (c : ascii) : bool :=
  (48 <=? nat_of_ascii c)%nat && (nat_of_ascii c <=? 57)%nat.

Definition is_digit19 (c : ascii) : bool :=
  (49 <=? nat_of_ascii c)%nat && (nat_of_ascii c <=? 57)%nat.

Fixpoint all_digits (s : string) : bool :=
  match s with
  | EmptyString => true
  | String c rest => is_digit c && all_digits rest
  end.

(** [[1-9]\d{1,14}$] against the whole remaining input. *)
Definition national (s : string) : bool :=
  match s with
  | EmptyString => false
  | String c rest =>
      is_digit19 c && (1 <=? String.length rest)%nat
      && (String.length rest <=? 14)%nat && all_digits rest
  end.

(** [validatePhoneNumber]: [/^\+?[1-9]\d{1,14}$/.test(number)].  The
    optional sign is tried first; without it the first character would have
    to be a digit, so a leading ["+"] can only be matched by [\+?]. *)
Definition validatePhoneNumber (number : string) : bool :=
  match number with
  | String "+"%char rest => national rest
  | _ => national number
  end.

(** JS truthiness of a string: only the empty string is falsy. *)
Definition truthy (s : string) : bool := negb (String.eqb s "").

(** A request field that may be absent: [!field] holds for [undefined] and
    for the empty string. *)
Definition present (field : option string) : option string :=
  match field with
  | Some s => if truthy s then Some s else None
  | None => None
  end.

(** ** The client library's check on a [clientId] *)

(** [\w] of a regular expression without the [u] flag, and the two extra
    characters of the class [[-_\w]]. *)
Definition is_id_char (c : ascii) : bool :=
  is_digit c
  || (65 <=? nat_of_ascii c)%nat && (nat_of_ascii c <=? 90)%nat
  || (97 <=? nat_of_ascii c)%nat && (nat_of_ascii c <=? 122)%nat
  || Ascii.eqb c "_" || Ascii.eqb c "-".

Fixpoint all_id_chars (s : string) : bool :=
  match s with
  | EmptyString => true
  | String c rest => is_id_char c && all_id_chars rest
  end.

(** The constructor of [LocalAuth] in whatsapp-web.js (a dependency, not
    among the sources of this repository):
    [const idRegex = /^[-_\w]+$/i;
     if (clientId && !idRegex.test(clientId)) throw new Error('Invalid clientId. ...')].
    A falsy [clientId] is not tested. *)
Definition valid_clientId (token : string) : bool :=
  negb (truthy token) || all_id_chars token.

(** ** The registry *)

(** A [Client] object: its identity and the [clientId] given to
    [LocalAuth]. *)
Record Client := { handle : nat; clientId : string }.

(** [this.clients], [this.qrCodes], [this.statuses]. *)
Record ClientManager := {
  clients : gmap string Client;
  qrCodes : gmap string string;
  statuses : gmap string string
}.

Definition empty_manager : ClientManager :=
  {| clients := ∅; qrCodes := ∅; statuses := ∅ |}.

(** [getQRCode]: [this.qrCodes.get(token) || null]. *)
Definition getQRCode (m : ClientManager) (token : string) : option string :=
  match qrCodes m !! token with
  | Some qr => if truthy qr then Some qr else None
  | None => None
  end.

(** [getStatus]: [this.statuses.get(token) || 'unknown']. *)
Definition getStatus (m : ClientManager) (token : string) : string :=
  match statuses m !! token with
  | Some s => if truthy s then s else "unknown"
  | None => "unknown"
  end.

(** [listSessions]: [Array.from(this.clients.keys())]; the insertion order
    of the keys is not kept. *)
Definition listSessions (m : ClientManager) : list string :=
  (map_to_list (clients m)).*1.

(** The statuses the manager ever stores (constructor comment of the
    class): ['initializing'], ['authenticated'], ['logged_out'],
    ['auth_failure']. *)
Definition lifecycle_statuses : list string :=
  ["initializing"; "authenticated"; "logged_out"; "auth_failure"].

(** The lifecycle states of the specification. *)
Inductive Lifecycle :=
| Initializing | AwaitingCode | Authenticated | AuthFailed | LoggedOut
| Removed.

(** ** Events, effects, errors *)

(** What the underlying client emits and the manager listens to. *)
Inductive client_event :=
| Qr (qr : string)
| Ready
| AuthFailure (msg : string)
| Disconnected (reason : string)
| Message (from body : string).

(** What is handed to [client.sendMessage]. *)
Inductive payload :=
| Text (message : string)
| Media (imageUrl caption : string).

(** Actions on the outside world. *)
Inductive effect :=
| NewClient (id : nat) (token : string)
| ClientInitialize (id : nat)
| ClientDestroy (id : nat)
| ClientLogout (id : nat)
| SendMessage (id : nat) (chat : string) (content : payload)
| HttpGet (url : string)
| QrTerminal (qr : string)
| Emit (event token : string) (arg : option string)
| ConsoleLog (line : string)
| ConsoleError (line : string)
| ExistsSync (dir : string)
| RmSync (dir : string)
| Sleep (ms : nat).

(** Thrown values.  The first four are the [new Error(...)] of
    ClientManager.js; [InvalidClientId] is the one of [new LocalAuth];
    [External] is whatever a collaborator rejects with. *)
Inductive error :=
| AlreadyExists
| NotFound
| NotAuthenticated
| FetchFailed
| InvalidClientId
| External (detail : string).

(** [error.message] *)
Definition error_message (e : error) : string :=
  match e with
  | AlreadyExists => "Client with this token already exists."
  | NotFound => "Client not found."
  | NotAuthenticated => "Client is not authenticated."
  | FetchFailed => "Failed to fetch image from URL."
  | InvalidClientId =>
      "Invalid clientId. Only alphanumeric characters, underscores and hyphens are allowed."
  | External detail => detail
  end.

(** ** The world and the monad *)

Record World := {
  mgr : ClientManager;
  (** directories present on disk *)
  authDirs : gset string;
  (** identity of the next [new Client] *)
  next_handle : nat;
  (** events the underlying clients deliver, one batch per timer wait *)
  inbox : list (list (string * client_event));
  (** external actions so far, oldest first, each with the registry in
      force when it was issued *)
  trace : list (effect * ClientManager)
}.

Definition with_mgr (m : ClientManager) (w : World) : World :=
  {| mgr := m; authDirs := authDirs w; next_handle := next_handle w; inbox := inbox w;
     trace := trace w |}.

Definition with_authDirs (d : gset string) (w : World) : World :=
  {| mgr := mgr w; authDirs := d; next_handle := next_handle w; inbox := inbox w;
     trace := trace w |}.

Definition with_next_handle (n : nat) (w : World) : World :=
  {| mgr := mgr w; authDirs := authDirs w; next_handle := n; inbox := inbox w;
     trace := trace w |}.

Definition with_inbox (i : list (list (string * client_event))) (w : World)
  : World :=
  {| mgr := mgr w; authDirs := authDirs w; next_handle := next_handle w; inbox := i;
     trace := trace w |}.

Definition with_trace (t : list (effect * ClientManager)) (w : World)
  : World :=
  {| mgr := mgr w; authDirs := authDirs w; next_handle := next_handle w; inbox := inbox w;
     trace := t |}.

(** A fresh process: [new ClientManager()], given disk and event schedule. *)
Definition boot (dirs : gset string)
  (events : list (list (string * client_event))) : World :=
  {| mgr := empty_manager; authDirs := dirs; next_handle := 0; inbox := events;
     trace := [] |}.

Inductive Result (A : Type) :=
| Ok (a : A)
| Err (e : error).
Arguments Ok {A} a.
Arguments Err {A} e.

Definition M (A : Type) : Type := World → Result A * World.

Definition ret {A} (a : A) : M A := λ w, (Ok a, w).

Definition bind {A B} (c : M A) (k : A → M B) : M B :=
  λ w, match c w with
       | (Ok a, w') => k a w'
       | (Err e, w') => (Err e, w')
       end.

(** [throw new Error(...)] *)
Definition throw {A} (e : error) : M A := λ w, (Err e, w).

(** [try { body } catch (err) { handler }] *)
Definition try_catch {A} (body : M A) (handler : error → M A) : M A :=
  λ w, match body w with
       | (Ok a, w') => (Ok a, w')
       | (Err e, w') => handler e w'
       end.

Notation "x <- c ;; k" := (bind c (λ x, k))
  (at level 100, c at next level, right associativity).
Notation "c ;; k" := (bind c (λ _, k))
  (at level 100, right associativity).

Definition get_mgr : M ClientManager := λ w, (Ok (mgr w), w).

Definition put_mgr (m : ClientManager) : M unit := λ w, (Ok tt, with_mgr m w).

(** Record an external action. *)
Definition perform (e : effect) : M unit :=
  λ w, (Ok tt, with_trace (trace w ++ [(e, mgr w)]) w).

(** The actions of a trace, without the registry snapshots. *)
Definition actions (w : World) : list effect := (trace w).*1.

(** Map updates of the three tables. *)
Definition set_client (token : string) (c : Client) : M unit :=
  m <- get_mgr ;;
  put_mgr {| clients := <[token := c]> (clients m); qrCodes := qrCodes m;
             statuses := statuses m |}.

Definition set_qr (token qr : string) : M unit :=
  m <- get_mgr ;;
  put_mgr {| clients := clients m; qrCodes := <[token := qr]> (qrCodes m);
             statuses := statuses m |}.

Definition delete_qr (token : string) : M unit :=
  m <- get_mgr ;;
  put_mgr {| clients := clients m; qrCodes := delete token (qrCodes m);
             statuses := statuses m |}.

Definition set_status (token status : string) : M unit :=
  m <- get_mgr ;;
  put_mgr {| clients := clients m; qrCodes := qrCodes m;
             statuses := <[token := status]> (statuses m) |}.

Definition delete_client (token : string) : M unit :=
  m <- get_mgr ;;
  put_mgr {| clients := delete token (clients m); qrCodes := qrCodes m;
             statuses := statuses m |}.

Definition delete_status (token : string) : M unit :=
  m <- get_mgr ;;
  put_mgr {| clients := clients m; qrCodes := qrCodes m;
             statuses := delete token (statuses m) |}.

(** ** The collaborators *)

(** Decisions taken outside the program. *)
Record Env := {
  (** [client.destroy()] rejects *)
  destroy_rejects : nat → option string;
  (** [client.logout()] rejects *)
  logout_rejects : nat → option string;
  (** [client.sendMessage(chatId, ...)] rejects *)
  send_rejects : nat → string → option string;
  (** [axios.get(url)] rejects *)
  get_rejects : string → bool;
  (** [fs.rmSync]/[fs.rmdirSync] on the directory throws *)
  rm_throws : string → option string;
  (** [qrcode.generate(qr, ...)] throws: the payload does not fit the
      largest QR symbol *)
  qr_overflows : string → option string;
  (** [__dirname] *)
  dirname : string;
  (** [path.resolve(...segments)] *)
  path_resolve : list string → string
}.

Section Collaborators.

Variable env : Env.

(** An external call that either returns or rejects with a detail. *)
Definition outcome (rejects : option string) : M unit :=
  match rejects with
  | Some detail => throw (External detail)
  | None => ret tt
  end.

(** [new Client({ authStrategy: new LocalAuth({ clientId: token, ... }) })].
    The argument [new LocalAuth(...)] is evaluated first and throws on a
    [clientId] it does not accept; no client is constructed then. *)
Definition new_Client (token : string) : M Client :=
  if valid_clientId token then
    λ w, let c := {| handle := next_handle w; clientId := token |} in
         (perform (NewClient (next_handle w) token) ;; ret c)
           (with_next_handle (S (next_handle w)) w)
  else throw InvalidClientId.

(** [client.initialize()]: starts the handshake. *)
Definition client_initialize (c : Client) : M unit :=
  perform (ClientInitialize (handle c)).

(** [await client.destroy()] *)
Definition client_destroy (c : Client) : M unit :=
  perform (ClientDestroy (handle c)) ;;
  outcome (destroy_rejects env (handle c)).

(** [await client.logout()] *)
Definition client_logout (c : Client) : M unit :=
  perform (ClientLogout (handle c)) ;;
  outcome (logout_rejects env (handle c)).

(** [await client.sendMessage(chatId, content)] *)
Definition client_sendMessage (c : Client) (chat : string) (content : payload)
  : M unit :=
  perform (SendMessage (handle c) chat content) ;;
  outcome (send_rejects env (handle c) chat).

Definition console_log (line : string) : M unit := perform (ConsoleLog line).

Definition console_error (line : string) : M unit :=
  perform (ConsoleError line).

(** [this.emit(event, token, arg)] *)
Definition emit (event token : string) (arg : option string) : M unit :=
  perform (Emit event token arg).

(** [fs.existsSync(dir)] *)
Definition fs_existsSync (dir : string) : M bool :=
  perform (ExistsSync dir) ;;
  (λ w, (Ok (bool_decide (dir ∈ authDirs w)), w)).

(** [fs.rmSync(dir, { recursive: true, force: true })]: the directory is
    gone when the call returns, and still there when it throws. *)
Definition fs_rmSync (dir : string) : M unit :=
  perform (RmSync dir) ;;
  match rm_throws env dir with
  | Some detail => throw (External detail)
  | None => λ w, (Ok tt, with_authDirs (authDirs w ∖ {[dir]}) w)
  end.

(** [qrcode.generate(qr, { small: true })]: prints the code on the
    terminal, or throws before printing anything. *)
Definition qrcode_generate (qr : string) : M unit :=
  match qr_overflows env qr with
  | Some detail => throw (External detail)
  | None => perform (QrTerminal qr)
  end.

(** ** ClientManager.js *)

(** The listeners [initializeClient] attaches to the client of [token]
    ([client.on('qr', ...)], ['ready'], ['auth_failure'], ['disconnected'],
    ['message']).  In the ['qr'] listener the code is stored after it has
    been printed. *)
Definition on_event (token : string) (ev : client_event) : M unit :=
  match ev with
  | Qr qr =>
      console_log ("QR RECEIVED for " +:+ token) ;;
      qrcode_generate qr ;;
      set_qr token qr ;;
      emit "qr" token (Some qr)
  | Ready =>
      console_log ("WhatsApp Client " +:+ token +:+ " is ready!") ;;
      set_status token "authenticated" ;;
      delete_qr token ;;
      emit "ready" token None
  | AuthFailure msg =>
      console_error ("AUTHENTICATION FAILURE for " +:+ token +:+ ": " +:+ msg) ;;
      set_status token "auth_failure" ;;
      delete_qr token ;;
      emit "auth_failure" token (Some msg)
  | Disconnected reason =>
      console_log ("Client " +:+ token +:+ " was disconnected. Reason: "
                   +:+ reason) ;;
      set_status token "logged_out" ;;
      emit "disconnected" token (Some reason)
  | Message from body =>
      console_log ("Message from " +:+ from +:+ " on " +:+ token +:+ ": "
                   +:+ body)
  end.

(** [initializeClient] of ClientManager.js: the handshake is started, then
    the client and its status are stored. *)
Definition initializeClient (token : string) : M unit :=
  m <- get_mgr ;;
  if bool_decide (is_Some (clients m !! token)) then throw AlreadyExists
  else
    client <- new_Client token ;;
    client_initialize client ;;
    set_client token client ;;
    set_status token "initializing".

(** [initializeClient] of the ClientManager.js kept beside index.js, whose
    header reads: "The client is stored in the map immediately (with status
    'initializing') to avoid race conditions." *)
Definition initializeClient_stored_first (token : string) : M unit :=
  m <- get_mgr ;;
  if bool_decide (is_Some (clients m !! token)) then throw AlreadyExists
  else
    client <- new_Client token ;;
    set_client token client ;;
    set_status token "initializing" ;;
    client_initialize client.

(** [fetchImageFromUrl]: any failure of the download is rethrown as
    ['Failed to fetch image from URL.']. *)
Definition fetchImageFromUrl (imageUrl : string) : M string :=
  try_catch
    (perform (HttpGet imageUrl) ;;
     if get_rejects env imageUrl then throw (External "get") else ret imageUrl)
    (λ _, throw FetchFailed).

(** [sendText] *)
Definition sendText (token number message : string) : M unit :=
  m <- get_mgr ;;
  match clients m !! token with
  | None => throw NotFound
  | Some client =>
      if negb (String.eqb (getStatus m token) "authenticated")
      then throw NotAuthenticated
      else client_sendMessage client (chatId number) (Text message)
  end.

(** [sendImage], run from its first line to its last with nothing else in
    between; [caption = ''] when the argument is [undefined]. *)
Definition sendImage (token number imageUrl : string) (caption : option string)
  : M unit :=
  m <- get_mgr ;;
  match clients m !! token with
  | None => throw NotFound
  | Some client =>
      if negb (String.eqb (getStatus m token) "authenticated")
      then throw NotAuthenticated
      else
        media <- fetchImageFromUrl imageUrl ;;
        client_sendMessage client (chatId number)
          (Media media (default "" caption))
  end.

(** The two halves of [sendImage] around
    [await this.fetchImageFromUrl(imageUrl)]: the checks and the request go
    out, the method is suspended, and it resumes with the client it had
    looked up when the download has settled.  Other calls and client events
    run in between. *)
Definition sendImage_begin (token imageUrl : string) : M Client :=
  m <- get_mgr ;;
  match clients m !! token with
  | None => throw NotFound
  | Some client =>
      if negb (String.eqb (getStatus m token) "authenticated")
      then throw NotAuthenticated
      else perform (HttpGet imageUrl) ;; ret client
  end.

Definition sendImage_resume (client : Client) (number imageUrl : string)
  (caption : option string) : M unit :=
  media <- (if get_rejects env imageUrl then throw FetchFailed
            else ret imageUrl) ;;
  client_sendMessage client (chatId number) (Media media (default "" caption)).

(** [path.resolve(__dirname, 'whatsapp_auth', token)] *)
Definition authDir (token : string) : string :=
  path_resolve env [dirname env; "whatsapp_auth"; token].

(** Where the client keeps the credentials of [token]: [LocalAuth] (in
    whatsapp-web.js, not among the sources of this repository) is given
    [dataPath: path.resolve(__dirname, 'whatsapp_auth')] and uses the
    directory [session-<clientId>] below it, [session] for a falsy id. *)
Definition credentialDir (token : string) : string :=
  path_resolve env
    [dirname env; "whatsapp_auth";
     if truthy token then "session-" +:+ token else "session"].

(** [removeSession] of ClientManager.js, run from its first line to its
    last with nothing else in between. *)
Definition removeSession (token : string) : M unit :=
  m <- get_mgr ;;
  match clients m !! token with
  | None => throw NotFound
  | Some client =>
      try_catch (client_destroy client)
        (λ err, console_error ("Failed to destroy client for token " +:+ token
                               +:+ ": " +:+ error_message err)) ;;
      delete_client token ;;
      delete_qr token ;;
      delete_status token ;;
      there <- fs_existsSync (authDir token) ;;
      if there : bool then
        try_catch
          (fs_rmSync (authDir token) ;;
           console_log ("Successfully removed auth directory for token "
                        +:+ token))
          (λ err, console_error ("Failed to remove auth folder for token "
                                 +:+ token +:+ ": " +:+ error_message err))
      else ret tt
  end.

(** The two halves of [removeSession] around [await client.destroy()]: the
    lookup and the call of [destroy], and, once that has settled, the rest
    of the method. *)
Definition removeSession_begin (token : string) : M Client :=
  m <- get_mgr ;;
  match clients m !! token with
  | None => throw NotFound
  | Some client => perform (ClientDestroy (handle client)) ;; ret client
  end.

Definition removeSession_resume (client : Client) (token : string) : M unit :=
  try_catch (outcome (destroy_rejects env (handle client)))
    (λ err, console_error ("Failed to destroy client for token " +:+ token
                           +:+ ": " +:+ error_message err)) ;;
  delete_client token ;;
  delete_qr token ;;
  delete_status token ;;
  there <- fs_existsSync (authDir token) ;;
  if there : bool then
    try_catch
      (fs_rmSync (authDir token) ;;
       console_log ("Successfully removed auth directory for token "
                    +:+ token))
      (λ err, console_error ("Failed to remove auth folder for token "
                             +:+ token +:+ ": " +:+ error_message err))
  else ret tt.

(** [removeSession] of the oldest ClientManager.js: nothing is caught, and
    [client.destroy()] is not awaited (its rejection cannot be thrown
    here). *)
Definition removeSession_uncaught (token : string) : M unit :=
  m <- get_mgr ;;
  match clients m !! token with
  | None => throw NotFound
  | Some client =>
      client_logout client ;;
      perform (ClientDestroy (handle client)) ;;
      delete_client token ;;
      delete_qr token ;;
      delete_status token ;;
      there <- fs_existsSync (authDir token) ;;
      if there : bool then fs_rmSync (authDir token) else ret tt
  end.

End Collaborators.

(** ** Time *)

(** The listeners of [token] exist: a client has been constructed for it.
    Nothing in the program detaches them ([removeSession] calls
    [client.destroy()] and forgets the client, nothing more). *)
Definition attached (token : string) (w : World) : bool :=
  existsb (λ e, match e with
                | NewClient _ t => String.eqb t token
                | _ => false
                end) (actions w).

Section Time.

Variable env : Env.

(** A client event reaches the listeners of its token, if there are any.
    What a listener throws ends that listener; it does not reach the
    handler that is waiting. *)
Definition listen (token : string) (ev : client_event) : M unit :=
  λ w, if attached token w
       then try_catch (on_event env token ev) (λ _, ret tt) w
       else (Ok tt, w).

(** Run the listeners for a batch of client events, in order. *)
Fixpoint deliver (batch : list (string * client_event)) : M unit :=
  match batch with
  | [] => ret tt
  | (token, ev) :: later => listen token ev ;; deliver later
  end.

(** [await new Promise((resolve) => setTimeout(resolve, ms))]: while the
    handler is suspended the next batch of client events is processed. *)
Definition sleep (ms : nat) : M unit :=
  perform (Sleep ms) ;;
  (λ w, match inbox w with
        | [] => (Ok tt, w)
        | batch :: later => deliver batch (with_inbox later w)
        end).

End Time.

(** Total time slept, in milliseconds. *)
Fixpoint slept (es : list effect) : nat :=
  match es with
  | [] => 0
  | Sleep ms :: later => ms + slept later
  | _ :: later => slept later
  end.

(** ** index.js *)

Inductive json :=
| JStr (s : string)
| JBool (b : bool).

(** [res.status(code).json(body)] *)
Record Response := { status : nat; body : list (string * json) }.

Definition respond (code : nat) (fields : list (string * json)) : Response :=
  {| status := code; body := fields |}.

(** [{ success: false, error }] *)
Definition failure (code : nat) (reason : string) : Response :=
  respond code [("success", JBool false); ("error", JStr reason)].

Definition invalid_recipient : Response :=
  failure 400 "Invalid recipient phone number format.".

Definition has_session (m : ClientManager) (token : string) : bool :=
  bool_decide (is_Some (clients m !! token)).

Definition maxAttempts : nat := 10.
Definition delay : nat := 1000.

(** The loop of [GET /qr/:token]:
    [while (!qr && attempts < maxAttempts) { await sleep; qr = getQRCode(token); attempts++; }]
    with [remaining = maxAttempts - attempts]. *)
Fixpoint poll_qr (env : Env) (token : string) (qr : option string)
  (remaining : nat) : M (option string) :=
  match qr, remaining with
  | None, S remaining' =>
      sleep env delay ;;
      m <- get_mgr ;;
      poll_qr env token (getQRCode m token) remaining'
  | _, _ => ret qr
  end.

Definition qr_timeout : Response :=
  respond 500
    [("message", JStr "QR code not available yet. Please try again shortly.")].

Section Handlers.

Variable env : Env.

(** [app.get('/qr/:token')] *)
Definition get_qr (token : string) : M Response :=
  m <- get_mgr ;;
  if negb (has_session m token)
  then ret (respond 404 [("message", JStr "Session not found.")])
  else
    let status := getStatus m token in
    if String.eqb status "authenticated"
    then ret (respond 400 [("message", JStr "Already authenticated.")])
    else
      failed <-
        (if String.eqb status "logged_out" || String.eqb status "auth_failure"
         then
           try_catch
             (removeSession env token ;; initializeClient token ;; ret None)
             (λ err,
                console_error ("Error re-initializing client: "
                               +:+ error_message err) ;;
                ret (Some (respond 500
                             [("message",
                               JStr "Failed to reinitialize session.")])))
         else ret None) ;;
      match failed with
      | Some response => ret response
      | None =>
          m <- get_mgr ;;
          qr <- poll_qr env token (getQRCode m token) maxAttempts ;;
          match qr with
          | Some code => ret (respond 200 [("qr", JStr code)])
          | None => ret qr_timeout
          end
      end.

(** The checks [POST /send-text] and [POST /send-image-url] share after the
    required fields: session, recipient format, status. *)
Definition send_guard (token number : string) (send : M Response)
  : M Response :=
  m <- get_mgr ;;
  if negb (has_session m token) then ret (failure 404 "Session not found.")
  else if negb (validatePhoneNumber number) then ret invalid_recipient
  else
    let status := getStatus m token in
    if String.eqb status "initializing"
    then ret (failure 503
      "Client is still initializing. Please wait until the QR code is scanned.")
    else if negb (String.eqb status "authenticated")
    then ret (failure 400 "Client is not authenticated.")
    else send.

(** [app.post('/send-text')] with body [{ token, number, message }], each
    field a string or absent. *)
Definition post_send_text (token number message : option string)
  : M Response :=
  match present token, present number, present message with
  | Some token, Some number, Some message =>
      send_guard token number
        (try_catch
           (sendText env token number message ;;
            ret (respond 200 [("success", JBool true);
                              ("message", JStr "Message sent successfully.")]))
           (λ err,
              console_error ("Error sending message: " +:+ error_message err) ;;
              ret (failure 500 (error_message err))))
  | _, _, _ => ret (failure 400 "Token, number, and message are required.")
  end.

(** [app.post('/send-image-url')] with body
    [{ token, number, imageUrl, caption }], each field a string or absent. *)
Definition post_send_image_url (token number imageUrl caption : option string)
  : M Response :=
  match present token, present number, present imageUrl with
  | Some token, Some number, Some imageUrl =>
      send_guard token number
        (try_catch
           (sendImage env token number imageUrl caption ;;
            ret (respond 200 [("success", JBool true);
                              ("message", JStr "Image sent successfully.")]))
           (λ err,
              console_error ("Error sending image: " +:+ error_message err) ;;
              ret (failure 500 (error_message err))))
  | _, _, _ => ret (failure 400 "Token, number, and imageUrl are required.")
  end.

End Handlers.

(** ** The pairing endpoint *)

(** What [clientManager.emit] hands to the listeners of the manager:
    event name, token, argument. *)
Definition emission : Type := string * string * string.

(** The listener [onCode] registered with [clientManager.on('code', onCode)]:
    resolves with the code when the emitted token is the awaited one. *)
Definition onCode (token : string) (e : emission) : option string :=
  match e with
  | (event, emittedToken, code) =>
      if String.eqb event "code" && String.eqb emittedToken token
      then Some code else None
  end.

Fixpoint first_code (token : string) (slice : list emission) : option string :=
  match slice with
  | [] => None
  | e :: later =>
      match onCode token e with
      | Some code => Some code
      | None => first_code token later
      end
  end.

(** [await new Promise((resolve) => { ...; clientManager.on('code', onCode) })]
    over what the manager emits from then on, one slice per second: the
    code that resolves the promise, or [None] while it is still pending at
    the end of the timeline.  No timer is involved. *)
Fixpoint await_code (token : string) (timeline : list (list emission))
  : option string :=
  match timeline with
  | [] => None
  | slice :: later =>
      match first_code token slice with
      | Some code => Some code
      | None => await_code token later
      end
  end.

Section Pairing.

(** The manager [POST /pair] is written against is not among the sources:
    its [getPairingCode] and its two-argument [initializeClient] are taken
    as given. *)
Variable getPairingCode : ClientManager → string → option string.
Variable initializeClient_pairing : string → string → M unit.

(** [app.post('/pair')] with body [{ number, token }]; [None] when no
    response has been sent by the end of the timeline. *)
Definition post_pair (number token : option string)
  (timeline : list (list emission)) : M (option Response) :=
  match present number, present token with
  | Some number, Some token =>
      if negb (validatePhoneNumber number)
      then ret (Some (failure 400 "Invalid phone number format."))
      else
        try_catch
          (m <- get_mgr ;;
           match (if has_session m token
                  then present (getPairingCode m token) else None) with
           | Some existingCode =>
               ret (Some (respond 200
                 [("success", JBool true);
                  ("message", JStr "Client session already initializing.");
                  ("pairingCode", JStr existingCode)]))
           | None =>
               initializeClient_pairing token number ;;
               match await_code token timeline with
               | Some pairingCode =>
                   ret (Some (respond 200
                     [("success", JBool true);
                      ("message", JStr
 "Pairing code generated. Enter this code on your phone to link your device.");
                      ("pairingCode", JStr pairingCode)]))
               | None => ret None
               end
           end)
          (λ err, ret (Some (failure 500 (error_message err))))
  | _, _ => ret (Some (failure 400 "Phone number and token are required."))
  end.

End Pairing.

(** ** Runs of the manager *)

(** One uninterrupted stretch of the manager's code: a call that runs to
    its end, a listener, or one half of [sendImage] or of [removeSession]
    (the two methods that wait for something in their middle).  Client
    events reach the listeners of every token a client was ever constructed
    for, whether or not that token still has a session; a download or a
    teardown that was started may settle at any later point, and the
    relation does not keep count of those that have settled already.  It
    therefore allows every interleaving of the program, and possibly
    more. *)
Inductive step (env : Env) : World → World → Prop :=
| step_initialize token w :
    step env w (initializeClient token w).2
| step_event token ev w :
    attached token w = true →
    step env w (on_event env token ev w).2
| step_sendText token number message w :
    step env w (sendText env token number message w).2
| step_sendImage_begin token imageUrl w :
    step env w (sendImage_begin token imageUrl w).2
| step_sendImage_resume token client number imageUrl caption m w :
    (HttpGet imageUrl, m) ∈ trace w →
    clients m !! token = Some client →
    getStatus m token = "authenticated" →
    step env w (sendImage_resume env client number imageUrl caption w).2
| step_remove token w :
    step env w (removeSession env token w).2
| step_remove_begin token w :
    step env w (removeSession_begin token w).2
| step_remove_resume token client m w :
    (ClientDestroy (handle client), m) ∈ trace w →
    clients m !! token = Some client →
    step env w (removeSession_resume env client token w).2.

Definition reachable (env : Env) (w : World) : Prop :=
  ∃ dirs events, rtc (step env) (boot dirs events) w.

(** Run a list of calls one after the other, keeping the last world. *)
Fixpoint run (calls : list (M unit)) (w : World) : World :=
  match calls with
  | [] => w
  | c :: later => run later (c w).2
  end.

(** ** Concrete collaborators *)

(** [path.resolve] on segments that need no normalisation. *)
Definition join_path (segments : list string) : string :=
  String.concat "/" segments.

(** Every external call succeeds. *)
Definition calm : Env :=
  {| destroy_rejects := λ _, None;
     logout_rejects := λ _, None;
     send_rejects := λ _ _, None;
     get_rejects := λ _, false;
     rm_throws := λ _, None;
     qr_overflows := λ _, None;
     dirname := "/srv/app";
     path_resolve := join_path |}.

(** Teardown and directory removal both fail. *)
Definition stuck : Env :=
  {| destroy_rejects := λ _, Some "Protocol error: Target closed";
     logout_rejects := λ _, Some "Protocol error: Target closed";
     send_rejects := λ _ _, None;
     get_rejects := λ _, false;
     rm_throws := λ _, Some "EBUSY: resource busy or locked";
     qr_overflows := λ _, None;
     dirname := "/srv/app";
     path_resolve := join_path |}.

(** ** Observations on a computation *)

(** Whatever the world, [c] sleeps at most [ms] milliseconds in total. *)
Definition within {A} (ms : nat) (c : M A) : Prop :=
  ∀ w, ∃ es, actions (c w).2 = (actions w ++ es)%list ∧ (slept es ≤ ms)%nat.

(** Whatever the world, [c] returns normally (it does not throw). *)
Definition responds {A} (c : M A) : Prop :=
  ∀ w, ∃ a, (c w).1 = Ok a.

(** The handshake of [token] is started only on a registry that already
    shows the session as initializing. *)
Definition handshake_after_store (token : string)
  (t : list (effect * ClientManager)) : Prop :=
  ∀ id m, (ClientInitialize id, m) ∈ t →
    has_session m token = true ∧ getStatus m token = "initializing".

(** The order of events the state machine of the specification allows,
    read on the statuses the manager stores: a code, readiness or a
    rejection while initializing, a disconnect once authenticated. *)
Definition allowed (status : string) (ev : client_event) : bool :=
  match ev with
  | Qr _ | Ready | AuthFailure _ => String.eqb status "initializing"
  | Disconnected _ => String.eqb status "authenticated"
  | Message _ _ => true
  end.

(** Calls into the manager with client events in that order only. *)
Inductive orderly_step (env : Env) : World → World → Prop :=
| orderly_initialize token w :
    orderly_step env w (initializeClient token w).2
| orderly_event token ev w :
    is_Some (clients (mgr w) !! token) →
    allowed (getStatus (mgr w) token) ev = true →
    orderly_step env w (on_event env token ev w).2
| orderly_remove token w :
    orderly_step env w (removeSession env token w).2.

(** A stored code belongs to a session that is still initializing. *)
Definition code_only_while_initializing (m : ClientManager) : Prop :=
  ∀ t qr, qrCodes m !! t = Some qr → statuses m !! t = Some "initializing".

(** ** index.js: the remaining endpoints *)

Definition success (text : string) : Response :=
  respond 200 [("success", JBool true); ("message", JStr text)].

Section Endpoints.

Variable env : Env.

(** [app.post('/sessions')] with body [{ number }], a string or absent; the
    number is the token. *)
Definition post_sessions (number : option string) : M Response :=
  match present number with
  | None => ret (failure 400 "Phone number is required.")
  | Some number =>
      if negb (validatePhoneNumber number)
      then ret (failure 400 "Invalid phone number format.")
      else
        let token := number in
        m <- get_mgr ;;
        answered <-
          (if has_session m token then
             let status := getStatus m token in
             if String.eqb status "initializing"
             then ret (Some (success
               "Session is already initializing. Please scan the QR code."))
             else if String.eqb status "authenticated"
             then ret (Some (success "Session is already authenticated."))
             else if String.eqb status "logged_out"
                     || String.eqb status "auth_failure"
             then
               try_catch (removeSession env token)
                 (λ err, console_error ("Error removing session: "
                                        +:+ error_message err)) ;;
               ret None
             else ret None
           else ret None) ;;
        match answered with
        | Some response => ret response
        | None =>
            try_catch
              (initializeClient token ;;
               ret (success
                 "Session initialized. Please authenticate using the QR code."))
              (λ err, ret (failure 500 (error_message err)))
        end
  end.

(** [app.get('/status/:token')] *)
Definition get_status (token : string) : M Response :=
  m <- get_mgr ;;
  if negb (has_session m token)
  then ret (respond 404 [("authenticated", JBool false);
                         ("message", JStr "Session not found.")])
  else
    let status := getStatus m token in
    ret (respond 200 [("authenticated",
                       JBool (String.eqb status "authenticated"));
                      ("status", JStr status)]).

(** [app.delete('/sessions/:token')] *)
Definition delete_session (token : string) : M Response :=
  m <- get_mgr ;;
  if negb (has_session m token) then ret (failure 404 "Session not found.")
  else
    try_catch
      (removeSession env token ;; ret (success "Session removed successfully."))
      (λ err,
         console_error ("Error removing session: " +:+ error_message err) ;;
         ret (failure 500 "Failed to remove session.")).

End Endpoints.

(** The array answered by [app.get('/sessions')]:
    [listSessions().map((token) => ({ token, status: getStatus(token) }))]. *)
Definition sessions_listing (m : ClientManager) : list (string * string) :=
  (λ token, (token, getStatus m token)) <$> listSessions m.

(** ** The media handed to the client *)

(** [new MessageMedia(mimetype, data, filename)] *)
Record MessageMedia := {
  mimetype : string;
  data : string;
  filename : string
}.

(** [s || fallback] on strings. *)
Definition or_else (s fallback : string) : string :=
  if truthy s then s else fallback.

(** [s.split('?')[0]]: the part of [s] before its first ["?"]. *)
Fixpoint before_query (s : string) : string :=
  match s with
  | EmptyString => EmptyString
  | String c rest =>
      if Ascii.eqb c "?" then EmptyString else String c (before_query rest)
  end.

Section Media.

(** [path.basename] and the base64 encoding of the downloaded bytes are
    library functions. *)
Variable basename : string → string.
Variable base64 : string → string.

(** The body of [fetchImageFromUrl] after the download: [contentType] is
    [response.headers['content-type']], [bytes] is [response.data]. *)
Definition build_media (imageUrl : string) (contentType : option string)
  (bytes : string) : MessageMedia :=
  {| mimetype := or_else (default "" contentType) "image/jpeg";
     data := base64 bytes;
     filename := or_else (before_query (basename imageUrl)) "image.jpg" |}.

End Media.

(** ** The first index.js: one client, two globals *)

Module SingleClient.

(** [let isAuthenticated = false; let qrCode = null;] *)
Record Globals := { isAuthenticated : bool; qrCode : option string }.

Definition initial : Globals := {| isAuthenticated := false; qrCode := None |}.

(** [client.on('qr' | 'ready' | 'auth_failure' | 'message', ...)]; nothing
    listens to ['disconnected']. *)
Definition on (ev : client_event) (g : Globals) : Globals :=
  match ev with
  | Qr qr => {| isAuthenticated := isAuthenticated g; qrCode := Some qr |}
  | Ready => {| isAuthenticated := true; qrCode := None |}
  | AuthFailure _ => {| isAuthenticated := false; qrCode := None |}
  | Disconnected _ => g
  | Message _ _ => g
  end.

(** [app.get('/status')] *)
Definition get_status (g : Globals) : Response :=
  respond 200 [("authenticated", JBool (isAuthenticated g))].

(** [app.get('/qr')] *)
Definition get_qr (g : Globals) : Response :=
  if isAuthenticated g
  then respond 400 [("message", JStr "Already authenticated.")]
  else
    match present (qrCode g) with
    | None =>
        respond 404 [("message", JStr "QR code not available at the moment.")]
    | Some code => respond 200 [("qr", JStr code)]
    end.

Definition refused : Response :=
  failure 403
    "WhatsApp client is not authenticated. Please authenticate first.".

(** [app.post('/send-text')] with body [{ number, message }]: the response
    and what was handed to [client.sendMessage]; [send_rejects] tells
    whether that call rejects. *)
Definition post_send_text (send_rejects : string → bool)
  (number message : option string) (g : Globals)
  : Response * list (string * payload) :=
  match present number, present message with
  | Some number, Some message =>
      if negb (isAuthenticated g) then (refused, [])
      else
        let chat := chatId number in
        (if send_rejects chat then failure 500 "Failed to send message."
         else success "Message sent successfully.",
         [(chat, Text message)])
  | _, _ => (failure 400 "Number and message are required.", [])
  end.

(** [app.post('/send-image-url')] with body [{ number, imageUrl, caption }];
    [get_rejects] tells whether the download fails. *)
Definition post_send_image_url (get_rejects : string → bool)
  (send_rejects : string → bool) (number imageUrl caption : option string)
  (g : Globals) : Response * list (string * payload) :=
  match present number, present imageUrl with
  | Some number, Some imageUrl =>
      if negb (isAuthenticated g) then (refused, [])
      else
        let chat := chatId number in
        if get_rejects imageUrl then (failure 500 "Failed to send image.", [])
        else
          (if send_rejects chat then failure 500 "Failed to send image."
           else success "Image sent successfully.",
           [(chat, Media imageUrl (default "" (present caption)))])
  | _, _ => (failure 400 "Number and image URL are required.", [])
  end.

(** [app.post('/logout')]; [logout_rejects] tells whether
    [client.logout()] rejects. *)
Definition post_logout (logout_rejects : bool) (g : Globals)
  : Response * Globals :=
  if logout_rejects then (failure 500 "Failed to log out.", g)
  else (success "Logged out successfully.",
        {| isAuthenticated := false; qrCode := None |}).

End SingleClient.

(** ** More observations *)

(** Every session has one of the four statuses. *)
Definition sessions_have_status (m : ClientManager) : Prop :=
  ∀ t c, clients m !! t = Some c →
    ∃ s, statuses m !! t = Some s ∧ s ∈ lifecycle_statuses.

(** Every stored client was created for the token it is stored under, and
    no client is stored under two tokens. *)
Definition clients_own_handles (w : World) : Prop :=
  (∀ t c, clients (mgr w) !! t = Some c →
     clientId c = t ∧ handle c < next_handle w)
  ∧ (∀ t1 t2 c1 c2,
       clients (mgr w) !! t1 = Some c1 → clients (mgr w) !! t2 = Some c2 →
       handle c1 = handle c2 → t1 = t2).




(** An action other than handing a message to a client. *)
Definition not_a_send (entry : effect * ClientManager) : Prop :=
  match entry with
  | (SendMessage _ _ _, _) => False
  | _ => True
  end.

(** [c] only ever adds entries satisfying [P] to the trace. *)
Definition appends {A} (P : effect * ClientManager → Prop) (c : M A) : Prop :=
  ∀ w, ∃ new, trace (c w).2 = (trace w ++ new)%list ∧ Forall P new.

(** What [removeSession token] may do on which registry: the client is
    destroyed while the session is still registered, the disk is touched
    once it no longer is. *)
Definition teardown_order (token : string) (entry : effect * ClientManager)
  : Prop :=
  match entry with
  | (ClientDestroy _, m) => has_session m token = true
  | (ExistsSync _, m) | (RmSync _, m) => has_session m token = false
  | _ => True
  end.

(** * Properties *)

(** ** Recipient normalisation *)

Lemma prefix_refl (s : string) : String.prefix s s = true.
Proof.
  induction s as [|c s IH]; simpl; [done|].
  destruct (Ascii.ascii_dec c c); [done|congruence].
Qed.

Lemma includes_self (s : string) : includes s s = true.
Proof.
  destruct s as [|c s]; simpl; [done|].
  rewrite prefix_refl. destruct (Ascii.ascii_dec c c); [done|congruence].
Qed.

Lemma includes_app (x s : string) : includes s (x +:+ s) = true.
Proof.
  induction x as [|c x IH]; simpl.
  - apply includes_self.
  - rewrite IH. apply orb_true_r.
Qed.

Lemma chatId_bare (x : string) :
  includes routing_suffix x = false → chatId x = x +:+ "@c.us".
Proof. unfold chatId. by intros ->. Qed.

Lemma chatId_suffixed (x : string) :
  includes routing_suffix x = true → chatId x = x.
Proof. unfold chatId. by intros ->. Qed.

(** C8. The recipient id handed to the client is the number itself when it
    already contains ["@c.us"], and the number followed by ["@c.us"]
    otherwise; normalising twice is the same as normalising once. *)
Theorem C8_chatId_appends_suffix_once (x : string) :
  chatId x = (if includes "@c.us" x then x else x +:+ "@c.us")
  ∧ chatId (chatId x) = chatId x.
Proof.
  split; [reflexivity|].
  destruct (includes routing_suffix x) eqn:E.
  - by rewrite !(chatId_suffixed x E).
  - rewrite (chatId_bare x E). apply chatId_suffixed, includes_app.
Qed.

(** ** E.164 validation against the routing suffix *)

Lemma includes_cons_ne (a c : ascii) (n r : string) :
  a ≠ c → includes (String a n) (String c r) = includes (String a n) r.
Proof.
  intros Hne. simpl. destruct (Ascii.ascii_dec a c); [done|].
  by destruct r.
Qed.

Lemma digit_not_at (c : ascii) : is_digit c = true → "@"%char ≠ c.
Proof. intros H <-. vm_compute in H. discriminate. Qed.

Lemma digit19_is_digit (c : ascii) : is_digit19 c = true → is_digit c = true.
Proof.
  unfold is_digit19, is_digit. rewrite !andb_true_iff, !Nat.leb_le. lia.
Qed.

Lemma all_digits_no_at (n s : string) :
  all_digits s = true → includes (String "@" n) s = false.
Proof.
  induction s as [|c s IH]; [done|].
  cbn [all_digits]. rewrite andb_true_iff. intros [Hc Hs].
  rewrite includes_cons_ne by by apply digit_not_at. auto.
Qed.

Lemma national_no_at (n s : string) :
  national s = true → includes (String "@" n) s = false.
Proof.
  destruct s as [|c s]; [done|].
  unfold national. rewrite !andb_true_iff. intros [[[Hc _] _] Hs].
  rewrite includes_cons_ne by by apply digit_not_at, digit19_is_digit.
  by apply all_digits_no_at.
Qed.

(** No string accepted by [validatePhoneNumber] contains an ["@"]. *)
Lemma valid_number_no_at (n s : string) :
  validatePhoneNumber s = true → includes (String "@" n) s = false.
Proof.
  unfold validatePhoneNumber. intros H.
  destruct s as [|c s]; [done|].
  destruct (decide (c = "+"%char)) as [->|Hne].
  - rewrite includes_cons_ne by done. by apply national_no_at.
  - apply national_no_at.
    destruct c as [[] [] [] [] [] [] [] []]; try done.
Qed.

Lemma suffixed_number_invalid (number : string) :
  includes routing_suffix number = true → validatePhoneNumber number = false.
Proof.
  intros H. destruct (validatePhoneNumber number) eqn:E; [|done].
  apply (valid_number_no_at "c.us") in E.
  unfold routing_suffix in H. congruence.
Qed.

Lemma suffixed_number_present (number : string) :
  includes routing_suffix number = true → present (Some number) = Some number.
Proof. by destruct number. Qed.

(** ** The send endpoints *)

Lemma send_guard_suffixed (token number : string) (send : M Response)
  (w : World) :
  includes routing_suffix number = true →
  send_guard token number send w =
    (Ok (if has_session (mgr w) token then invalid_recipient
         else failure 404 "Session not found."), w).
Proof.
  intros H. unfold send_guard, bind, get_mgr, ret.
  destruct (has_session (mgr w) token); simpl; [|done].
  by rewrite suffixed_number_invalid.
Qed.

(** A request for [POST /send-text] whose recipient carries the suffix but
    whose token has no session is answered 404 "Session not found.", not
    with the recipient-format error. *)
Lemma C9_unknown_token_is_not_a_format_error :
  includes routing_suffix "15550001111@c.us" = true
  ∧ post_send_text calm (Some "ghost") (Some "15550001111@c.us") (Some "hi")
      (boot ∅ [])
    = (Ok (failure 404 "Session not found."), boot ∅ [])
  ∧ failure 404 "Session not found." ≠ invalid_recipient.
Proof. split; [|split]; [reflexivity|reflexivity|discriminate]. Qed.

(** C9, amended. A request for [POST /send-text] or [POST /send-image-url]
    whose recipient contains ["@c.us"] fails E.164 validation and is always
    answered with an error without any action on the outside world (no
    send, no download); the error is the recipient-format one (400) whenever
    the required fields are present and the token has a session, and
    otherwise the one of the earlier check that fired (400 missing fields,
    404 unknown session). *)
Theorem C9_suffixed_recipient_is_rejected_unsent (env : Env) (w : World)
  (token message imageUrl caption : option string) (number : string) :
  includes routing_suffix number = true →
  validatePhoneNumber number = false
  ∧ (∃ r, post_send_text env token (Some number) message w = (Ok r, w)
        ∧ r ∈ [failure 400 "Token, number, and message are required.";
               failure 404 "Session not found."; invalid_recipient]
        ∧ (∀ t msg, present token = Some t → present message = Some msg →
             has_session (mgr w) t = true → r = invalid_recipient))
  ∧ (∃ r, post_send_image_url env token (Some number) imageUrl caption w
          = (Ok r, w)
        ∧ r ∈ [failure 400 "Token, number, and imageUrl are required.";
               failure 404 "Session not found."; invalid_recipient]
        ∧ (∀ t url, present token = Some t → present imageUrl = Some url →
             has_session (mgr w) t = true → r = invalid_recipient)).
Proof.
  intros H. split; [by apply suffixed_number_invalid|].
  split.
  - unfold post_send_text. rewrite (suffixed_number_present _ H).
    destruct (present token) as [t|]; [destruct (present message) as [msg|]|].
    + rewrite send_guard_suffixed by done.
      eexists; split; [reflexivity|]. split.
      * destruct (has_session (mgr w) t); set_solver.
      * intros t' msg' [= <-] _ ->. done.
    + eexists; split; [reflexivity|]. split; [set_solver|]. intros; congruence.
    + eexists; split; [reflexivity|]. split; [set_solver|]. intros; congruence.
  - unfold post_send_image_url. rewrite (suffixed_number_present _ H).
    destruct (present token) as [t|]; [destruct (present imageUrl) as [url|]|].
    + rewrite send_guard_suffixed by done.
      eexists; split; [reflexivity|]. split.
      * destruct (has_session (mgr w) t); set_solver.
      * intros t' url' [= <-] _ ->. done.
    + eexists; split; [reflexivity|]. split; [set_solver|]. intros; congruence.
    + eexists; split; [reflexivity|]. split; [set_solver|]. intros; congruence.
Qed.

(** ** The manager *)

Ltac unfold_manager :=
  unfold initializeClient, initializeClient_stored_first, sendText, sendImage,
    removeSession, removeSession_uncaught, on_event, qrcode_generate,
    sendImage_begin, sendImage_resume, removeSession_begin,
    removeSession_resume,
    set_client, set_status, set_qr, delete_qr, delete_client, delete_status,
    new_Client, client_initialize, client_destroy, client_logout,
    client_sendMessage, console_log, console_error, emit, fs_existsSync,
    fs_rmSync, fetchImageFromUrl, outcome, try_catch, bind, ret, throw,
    get_mgr, put_mgr, perform.

Lemma initializeClient_exists (token : string) (w : World) :
  is_Some (clients (mgr w) !! token) →
  initializeClient token w = (Err AlreadyExists, w).
Proof. intros H. unfold_manager. simpl. by rewrite bool_decide_eq_true_2. Qed.

Lemma initializeClient_invalid (token : string) (w : World) :
  clients (mgr w) !! token = None →
  valid_clientId token = false →
  initializeClient token w = (Err InvalidClientId, w).
Proof.
  intros H Hv. unfold_manager. simpl. rewrite Hv.
  rewrite bool_decide_eq_false_2; [done|]. rewrite H. by intros [? ?].
Qed.

Lemma initializeClient_new (token : string) (w : World) :
  valid_clientId token = true →
  clients (mgr w) !! token = None →
  initializeClient token w =
    (Ok tt,
     {| mgr := {| clients := <[token := {| handle := next_handle w;
                                           clientId := token |}]>
                               (clients (mgr w));
                  qrCodes := qrCodes (mgr w);
                  statuses := <[token := "initializing"]> (statuses (mgr w)) |};
        authDirs := authDirs w;
        next_handle := S (next_handle w);
        inbox := inbox w;
        trace := (trace w ++ [(NewClient (next_handle w) token, mgr w)])
                 ++ [(ClientInitialize (next_handle w), mgr w)] |}).
Proof.
  intros Hv H. unfold_manager. simpl. rewrite Hv.
  rewrite bool_decide_eq_false_2; [done|]. rewrite H. by intros [? ?].
Qed.

Lemma initializeClient_stored_first_invalid (token : string) (w : World) :
  clients (mgr w) !! token = None →
  valid_clientId token = false →
  initializeClient_stored_first token w = (Err InvalidClientId, w).
Proof.
  intros H Hv. unfold_manager. simpl. rewrite Hv.
  rewrite bool_decide_eq_false_2; [done|]. rewrite H. by intros [? ?].
Qed.

Lemma initializeClient_stored_first_new (token : string) (w : World) :
  valid_clientId token = true →
  clients (mgr w) !! token = None →
  ∃ stored,
    stored =
      {| clients := <[token := {| handle := next_handle w;
                                  clientId := token |}]> (clients (mgr w));
         qrCodes := qrCodes (mgr w);
         statuses := <[token := "initializing"]> (statuses (mgr w)) |}
    ∧ initializeClient_stored_first token w =
      (Ok tt,
       {| mgr := stored;
          authDirs := authDirs w;
          next_handle := S (next_handle w);
          inbox := inbox w;
          trace := (trace w ++ [(NewClient (next_handle w) token, mgr w)])
                   ++ [(ClientInitialize (next_handle w), stored)] |}).
Proof.
  intros Hv H. eexists. split; [reflexivity|]. unfold_manager. simpl.
  rewrite Hv.
  rewrite bool_decide_eq_false_2; [done|]. rewrite H. by intros [? ?].
Qed.

Lemma getStatus_insert (m : ClientManager) (token status : string)
  (c : gmap string Client) (q : gmap string string) :
  status ≠ "" →
  getStatus {| clients := c; qrCodes := q;
               statuses := <[token := status]> (statuses m) |} token = status.
Proof.
  intros H. unfold getStatus. simpl. rewrite lookup_insert_eq.
  destruct status; [done|reflexivity].
Qed.

Lemma getStatus_absent (m : ClientManager) (token : string) :
  statuses m !! token = None → getStatus m token = "unknown".
Proof. unfold getStatus. by intros ->. Qed.

Lemma getQRCode_absent (m : ClientManager) (token : string) :
  qrCodes m !! token = None → getQRCode m token = None.
Proof. unfold getQRCode. by intros ->. Qed.

(** The keys of a [Map] are pairwise distinct. *)
Lemma listSessions_NoDup (m : ClientManager) : NoDup (listSessions m).
Proof. apply NoDup_fst_map_to_list. Qed.

(** C1. [initializeClient] on a token that already has a client throws
    "Client with this token already exists." and changes nothing.  On a
    token without a client it does not always succeed: when the token is
    not acceptable as a [clientId] (any character outside letters, digits,
    [_] and [-]) it throws "Invalid clientId. ..." and stores nothing; only
    for the other tokens does it return with the client stored, the status
    ["initializing"] and the entries of other tokens as before.  The number
    ["+15551234567"] passes [validatePhoneNumber], which is all POST
    /sessions checks before it uses the number as token, and is not
    acceptable as a [clientId]: no session can be created for it. *)
Theorem C1_create_fails_for_unacceptable_clientId (w : World)
  (token : string) :
  (is_Some (clients (mgr w) !! token) →
     initializeClient token w = (Err AlreadyExists, w))
  ∧ (clients (mgr w) !! token = None → valid_clientId token = false →
     initializeClient token w = (Err InvalidClientId, w))
  ∧ (clients (mgr w) !! token = None → valid_clientId token = true →
     ∃ w' c, initializeClient token w = (Ok tt, w')
       ∧ clients (mgr w') !! token = Some c
       ∧ clientId c = token
       ∧ getStatus (mgr w') token = "initializing"
       ∧ ∀ t, t ≠ token →
           clients (mgr w') !! t = clients (mgr w) !! t
           ∧ statuses (mgr w') !! t = statuses (mgr w) !! t
           ∧ qrCodes (mgr w') !! t = qrCodes (mgr w) !! t)
  ∧ validatePhoneNumber "+15551234567" = true
  ∧ valid_clientId "+15551234567" = false
  ∧ initializeClient "+15551234567" w
    = (if bool_decide (is_Some (clients (mgr w) !! "+15551234567"))
       then Err AlreadyExists else Err InvalidClientId, w).
Proof.
  split; [apply initializeClient_exists|].
  split; [apply initializeClient_invalid|].
  split; [|split; [reflexivity|split; [reflexivity|]]].
  - intros H Hv. rewrite (initializeClient_new _ _ Hv H).
    eexists _, _. split; [reflexivity|]. simpl.
    split; [apply lookup_insert_eq|]. split; [reflexivity|].
    split; [by apply getStatus_insert|].
    intros t Hne. by rewrite !lookup_insert_ne.
  - case_bool_decide as H.
    + by apply initializeClient_exists.
    + apply initializeClient_invalid; [|reflexivity].
      destruct (clients (mgr w) !! "+15551234567") eqn:E; [|done].
      exfalso. apply H. by eexists.
Qed.

Lemma sendText_unknown (env : Env) (token number message : string) (w : World) :
  clients (mgr w) !! token = None →
  sendText env token number message w = (Err NotFound, w).
Proof. intros H. unfold_manager. simpl. by rewrite H. Qed.

Lemma sendImage_unknown (env : Env) (token number imageUrl : string)
  (caption : option string) (w : World) :
  clients (mgr w) !! token = None →
  sendImage env token number imageUrl caption w = (Err NotFound, w).
Proof. intros H. unfold_manager. simpl. by rewrite H. Qed.

Lemma not_authenticated (s : string) :
  s ≠ "authenticated" → negb (String.eqb s "authenticated") = true.
Proof. intros H. apply negb_true_iff, String.eqb_neq, H. Qed.

(** C2. [sendText] and [sendImage] throw "Client not found." for a token
    without a client and "Client is not authenticated." for a token whose
    status is anything but ["authenticated"]; in both cases the world is
    left as it was: nothing is downloaded and nothing is handed to the
    client. *)
Theorem C2_send_requires_authenticated (env : Env) (w : World)
  (token number message imageUrl : string) (caption : option string) :
  (clients (mgr w) !! token = None →
     sendText env token number message w = (Err NotFound, w)
     ∧ sendImage env token number imageUrl caption w = (Err NotFound, w))
  ∧ (is_Some (clients (mgr w) !! token) →
     getStatus (mgr w) token ≠ "authenticated" →
     sendText env token number message w = (Err NotAuthenticated, w)
     ∧ sendImage env token number imageUrl caption w
       = (Err NotAuthenticated, w)).
Proof.
  split.
  - intros H. by rewrite sendText_unknown, sendImage_unknown.
  - intros [c Hc] Hs. unfold_manager. simpl. rewrite Hc.
    by rewrite (not_authenticated _ Hs).
Qed.

(** An authenticated session hands the normalised recipient to its
    client. *)
Lemma sendText_authenticated (env : Env) (w : World) (c : Client)
  (token number message : string) :
  clients (mgr w) !! token = Some c →
  getStatus (mgr w) token = "authenticated" →
  actions (sendText env token number message w).2 =
    (actions w ++ [SendMessage (handle c) (chatId number) (Text message)])%list.
Proof.
  intros Hc Hs. unfold_manager. simpl. rewrite Hc, Hs. simpl.
  unfold actions. destruct (send_rejects _ _ _); simpl; by rewrite fmap_app.
Qed.

(** ** Lifecycle events *)

(** What each listener does to the registry.  Only the ['qr'] listener can
    throw, and it then has stored nothing. *)
Lemma on_event_mgr (env : Env) (token : string) (ev : client_event)
  (w : World) :
  (on_event env token ev w).1 =
    match ev with
    | Qr qr =>
        match qr_overflows env qr with
        | Some detail => Err (External detail)
        | None => Ok tt
        end
    | _ => Ok tt
    end
  ∧ mgr (on_event env token ev w).2 =
    match ev with
    | Qr qr =>
        match qr_overflows env qr with
        | Some _ => mgr w
        | None =>
            {| clients := clients (mgr w);
               qrCodes := <[token := qr]> (qrCodes (mgr w));
               statuses := statuses (mgr w) |}
        end
    | Ready =>
        {| clients := clients (mgr w);
           qrCodes := delete token (qrCodes (mgr w));
           statuses := <[token := "authenticated"]> (statuses (mgr w)) |}
    | AuthFailure _ =>
        {| clients := clients (mgr w);
           qrCodes := delete token (qrCodes (mgr w));
           statuses := <[token := "auth_failure"]> (statuses (mgr w)) |}
    | Disconnected _ =>
        {| clients := clients (mgr w);
           qrCodes := qrCodes (mgr w);
           statuses := <[token := "logged_out"]> (statuses (mgr w)) |}
    | Message _ _ => mgr w
    end.
Proof.
  destruct ev; try done.
  unfold_manager. simpl. by destruct (qr_overflows env qr).
Qed.

(** A listener only adds to the trace. *)
Lemma on_event_actions (env : Env) (token : string) (ev : client_event)
  (w : World) :
  ∃ es, actions (on_event env token ev w).2 = (actions w ++ es)%list.
Proof.
  unfold actions.
  destruct ev; unfold_manager; simpl; try destruct (qr_overflows env qr);
    simpl; rewrite ?fmap_app, <- ?app_assoc; by eexists.
Qed.

Lemma attached_app (token : string) (w w' : World) (es : list effect) :
  actions w' = (actions w ++ es)%list →
  attached token w = true → attached token w' = true.
Proof.
  unfold attached. intros ->. rewrite existsb_app. by intros ->.
Qed.

Lemma attached_initialized (token : string) (w : World) :
  valid_clientId token = true →
  clients (mgr w) !! token = None →
  attached token (initializeClient token w).2 = true.
Proof.
  intros Hv Hc. rewrite (initializeClient_new _ _ Hv Hc).
  unfold attached, actions. cbn [snd trace].
  rewrite !fmap_app, !existsb_app. cbn [fmap list_fmap fst existsb].
  by rewrite String.eqb_refl, !orb_true_r.
Qed.

Lemma getQRCode_set (m : ClientManager) (token qr : string)
  (c : gmap string Client) (s : gmap string string) :
  qr ≠ "" →
  getQRCode {| clients := c; qrCodes := <[token := qr]> (qrCodes m);
               statuses := s |} token = Some qr.
Proof.
  intros H. unfold getQRCode. simpl. rewrite lookup_insert_eq.
  destruct qr; [done|reflexivity].
Qed.

Lemma getQRCode_deleted (m : ClientManager) (token : string)
  (c : gmap string Client) (s : gmap string string) :
  getQRCode {| clients := c; qrCodes := delete token (qrCodes m);
               statuses := s |} token = None.
Proof. unfold getQRCode. simpl. by rewrite lookup_delete_eq. Qed.

(** The ['ready'] and ['auth_failure'] listeners drop the stored code. *)
Lemma ready_clears_artifact (env : Env) (token : string) (w : World) :
  getStatus (mgr (on_event env token Ready w).2) token = "authenticated"
  ∧ getQRCode (mgr (on_event env token Ready w).2) token = None.
Proof.
  destruct (on_event_mgr env token Ready w) as [_ ->].
  split; [by apply getStatus_insert|apply getQRCode_deleted].
Qed.

Lemma auth_failure_clears_artifact (env : Env) (token msg : string)
  (w : World) :
  getStatus (mgr (on_event env token (AuthFailure msg) w).2) token
    = "auth_failure"
  ∧ getQRCode (mgr (on_event env token (AuthFailure msg) w).2) token = None.
Proof.
  destruct (on_event_mgr env token (AuthFailure msg) w) as [_ ->].
  split; [by apply getStatus_insert|apply getQRCode_deleted].
Qed.

(** The ['disconnected'] listener leaves the stored code where it is. *)
Lemma disconnected_keeps_artifact (env : Env) (token reason : string)
  (w : World) :
  getStatus (mgr (on_event env token (Disconnected reason) w).2) token
    = "logged_out"
  ∧ getQRCode (mgr (on_event env token (Disconnected reason) w).2) token
    = getQRCode (mgr w) token.
Proof.
  destruct (on_event_mgr env token (Disconnected reason) w) as [_ ->].
  split; [by apply getStatus_insert|reflexivity].
Qed.

(** C3. After [initializeClient], a ['qr'] event and then a
    ['disconnected'] event, the status of the token is ["logged_out"] and
    [getQRCode] still returns the code: the ['disconnected'] listener, unlike
    the ['ready'] and ['auth_failure'] listeners, does not delete it.  (The
    code is the one of the ['qr'] event whenever that listener stored it,
    that is, unless printing it threw.)  For a token a client can be
    constructed for, this is a run of the manager. *)
Theorem C3_disconnected_session_keeps_its_code (env : Env)
  (dirs : gset string) (events : list (list (string * client_event)))
  (token qr reason : string) :
  qr ≠ "" →
  let w := run [initializeClient token; on_event env token (Qr qr);
                on_event env token (Disconnected reason)] (boot dirs events) in
  getStatus (mgr w) token = "logged_out"
  ∧ getQRCode (mgr w) token
    = match qr_overflows env qr with
      | None => Some qr
      | Some _ => None
      end
  ∧ (valid_clientId token = true → reachable env w).
Proof.
  intros Hqr w. subst w. cbn [run].
  destruct (disconnected_keeps_artifact env token reason
    (on_event env token (Qr qr) (initializeClient token (boot dirs events)).2).2)
    as [-> ->].
  split; [done|]. split.
  - destruct (on_event_mgr env token (Qr qr)
                (initializeClient token (boot dirs events)).2) as [_ ->].
    destruct (qr_overflows env qr).
    + destruct (valid_clientId token) eqn:Hv.
      * by rewrite (initializeClient_new token (boot dirs events) Hv
                      (lookup_empty _)).
      * by rewrite (initializeClient_invalid token (boot dirs events)
                      (lookup_empty _) Hv).
    + by apply getQRCode_set.
  - intros Hv. exists dirs, events.
    assert (attached token (initializeClient token (boot dirs events)).2
            = true) as Ha by by apply attached_initialized.
    eapply rtc_l; [apply (step_initialize env token)|].
    eapply rtc_l; [by apply (step_event env token (Qr qr))|].
    eapply rtc_l; [|apply rtc_refl].
    apply (step_event env token (Disconnected reason)).
    destruct (on_event_actions env token (Qr qr)
                (initializeClient token (boot dirs events)).2) as [es Hes].
    by eapply attached_app.
Qed.

(** After [initializeClient] and a ['qr'] event [getStatus] returns what it
    returned before the event, so no reading of statuses as lifecycle
    states can see [Initializing] first and [AwaitingCode] afterwards. *)
Lemma C5_status_unchanged_by_artifact :
  let created := run [initializeClient "15551234567"] (boot ∅ []) in
  let offered := run [on_event calm "15551234567" (Qr "2@Yx8")] created in
  (initializeClient "15551234567" (boot ∅ [])).1 = Ok tt
  ∧ (on_event calm "15551234567" (Qr "2@Yx8") created).1 = Ok tt
  ∧ getQRCode (mgr offered) "15551234567" = Some "2@Yx8"
  ∧ getStatus (mgr created) "15551234567" = "initializing"
  ∧ getStatus (mgr offered) "15551234567" = "initializing"
  ∧ ¬ ∃ read : string → Lifecycle,
        read (getStatus (mgr created) "15551234567") = Initializing
        ∧ read (getStatus (mgr offered) "15551234567") = AwaitingCode.
Proof.
  do 5 (split; [reflexivity|]).
  intros [read [H1 H2]].
  change (read "initializing" = Initializing) in H1.
  change (read "initializing" = AwaitingCode) in H2.
  congruence.
Qed.

(** C5, amended. A token without a client and acceptable as a [clientId]
    is initialised, and its client then emits a non-empty code that the
    terminal printer accepts and becomes ready: [initializeClient] returns
    and right after it the status is ["initializing"]; after the ['qr']
    event [getQRCode] returns the code and the status is still
    ["initializing"]; after ['ready'] [getQRCode] returns null and the
    status is ["authenticated"]. *)
Theorem C5_scenario_A_statuses (env : Env) (w : World) (token qr : string) :
  clients (mgr w) !! token = None →
  valid_clientId token = true →
  qr ≠ "" →
  qr_overflows env qr = None →
  let created := (initializeClient token w).2 in
  let offered := (on_event env token (Qr qr) created).2 in
  let ready := (on_event env token Ready offered).2 in
  (initializeClient token w).1 = Ok tt
  ∧ getStatus (mgr created) token = "initializing"
  ∧ (on_event env token (Qr qr) created).1 = Ok tt
  ∧ getQRCode (mgr offered) token = Some qr
  ∧ getStatus (mgr offered) token = "initializing"
  ∧ getQRCode (mgr ready) token = None
  ∧ getStatus (mgr ready) token = "authenticated".
Proof.
  intros Hc Hv Hqr Hfit created offered ready.
  destruct (ready_clears_artifact env token offered) as [Hs Hq].
  subst ready offered created.
  destruct (on_event_mgr env token (Qr qr) (initializeClient token w).2)
    as [Hr Hm].
  rewrite Hfit in Hr, Hm.
  split; [by rewrite (initializeClient_new _ _ Hv Hc)|].
  split; [rewrite (initializeClient_new _ _ Hv Hc); by apply getStatus_insert|].
  split; [done|].
  assert (∀ A B C D : Prop, A → B → C ∧ D → A ∧ B ∧ D ∧ C) as Hand by tauto.
  apply Hand; [| |by split]; rewrite Hm;
    rewrite (initializeClient_new _ _ Hv Hc);
    cbn [snd mgr clients qrCodes statuses].
  - by apply getQRCode_set.
  - by apply (getStatus_insert (mgr w)).
Qed.

(** ** Order of storing and starting the handshake *)

(** C7. In [initializeClient] of ClientManager.js the handshake is started
    on a registry in which the token has neither client nor status: a
    status read at that point returns ["unknown"].  The session is stored
    only afterwards.  (This is the call on every token a client can be
    constructed for; on the others the call throws before anything is
    started.) *)
Theorem C7_handshake_started_before_store (dirs : gset string)
  (events : list (list (string * client_event))) (token : string) :
  has_session empty_manager token = false
  ∧ getStatus empty_manager token = "unknown"
  ∧ (valid_clientId token = true →
       trace (initializeClient token (boot dirs events)).2
         = [(NewClient 0 token, empty_manager);
            (ClientInitialize 0, empty_manager)]
       ∧ ¬ handshake_after_store token
             (trace (initializeClient token (boot dirs events)).2))
  ∧ (valid_clientId token = false →
       initializeClient token (boot dirs events)
         = (Err InvalidClientId, boot dirs events)).
Proof.
  split; [done|]. split; [done|]. split.
  - intros Hv.
    assert (trace (initializeClient token (boot dirs events)).2
      = [(NewClient 0 token, empty_manager);
         (ClientInitialize 0, empty_manager)]) as Ht.
    { by rewrite initializeClient_new. }
    split; [done|].
    intros H. destruct (H 0 empty_manager) as [Hs _]; [|done].
    rewrite Ht. set_solver.
  - intros Hv. by apply initializeClient_invalid.
Qed.

(** The same call from any world in which the token has no session. *)
Lemma handshake_started_on_old_registry (token : string) (w : World) :
  valid_clientId token = true →
  clients (mgr w) !! token = None →
  last (trace (initializeClient token w).2)
    = Some (ClientInitialize (next_handle w), mgr w)
  ∧ has_session (mgr w) token = false.
Proof.
  intros Hv H. rewrite (initializeClient_new _ _ Hv H). cbn [snd trace].
  split; [apply last_snoc|].
  unfold has_session. rewrite bool_decide_eq_false_2; [done|].
  rewrite H. by intros [? ?].
Qed.

(** X22. [initializeClient] of the ClientManager.js kept beside index.js
    stores first, as its header says: on a fresh manager the handshake is
    started on a registry that already shows the session with status
    ["initializing"]; and for a token a client can be constructed for, the
    handshake is started. *)
Lemma stored_first_handshake_after_store (dirs : gset string)
  (events : list (list (string * client_event))) (token : string) :
  handshake_after_store token
    (trace (initializeClient_stored_first token (boot dirs events)).2)
  ∧ (if valid_clientId token
     then ∃ m, (ClientInitialize 0, m)
               ∈ trace (initializeClient_stored_first token
                          (boot dirs events)).2
     else initializeClient_stored_first token (boot dirs events)
          = (Err InvalidClientId, boot dirs events)).
Proof.
  destruct (valid_clientId token) eqn:Hv.
  - destruct (initializeClient_stored_first_new token (boot dirs events))
      as (stored & Hs & ->); [done|done|]. split.
    + intros id m Hin. cbn in Hin.
      apply elem_of_cons in Hin as [[=]|Hin].
      apply list_elem_of_singleton in Hin as [= _ ->].
      subst stored. split.
      * unfold has_session. apply bool_decide_eq_true_2. cbn.
        rewrite lookup_insert_eq. by eexists.
      * by apply (getStatus_insert empty_manager).
    + exists stored. cbn. set_solver.
  - rewrite (initializeClient_stored_first_invalid token (boot dirs events)
               (lookup_empty _) Hv).
    split; [|done]. intros id m Hin. cbn in Hin. set_solver.
Qed.

(** ** Removal *)

Lemma removeSession_unknown (env : Env) (token : string) (w : World) :
  clients (mgr w) !! token = None →
  removeSession env token w = (Err NotFound, w).
Proof. intros H. unfold_manager. simpl. by rewrite H. Qed.

Lemma removeSession_mgr (env : Env) (token : string) (w : World) (c : Client) :
  clients (mgr w) !! token = Some c →
  (removeSession env token w).1 = Ok tt
  ∧ mgr (removeSession env token w).2 =
      {| clients := delete token (clients (mgr w));
         qrCodes := delete token (qrCodes (mgr w));
         statuses := delete token (statuses (mgr w)) |}.
Proof.
  intros H. unfold_manager. simpl. rewrite H.
  destruct (destroy_rejects env (handle c)); simpl;
    (case_bool_decide; [destruct (rm_throws env _)|]; by simpl).
Qed.

Lemma removeSession_disk (env : Env) (token : string) (w : World) (c : Client) :
  clients (mgr w) !! token = Some c →
  authDirs (removeSession env token w).2 =
    match rm_throws env (authDir env token) with
    | Some _ => authDirs w
    | None => authDirs w ∖ {[authDir env token]}
    end.
Proof.
  intros H. unfold_manager. simpl. rewrite H.
  destruct (destroy_rejects env (handle c)); simpl;
    (case_bool_decide as Hin; [destruct (rm_throws env _)|];
     simpl; [done|done|]);
    (destruct (rm_throws env _); [done|]);
    symmetry; by apply difference_disjoint_L, disjoint_singleton_r.
Qed.

Lemma removeSession_logs_destroy (env : Env) (token : string) (w : World)
  (c : Client) (detail : string) :
  clients (mgr w) !! token = Some c →
  destroy_rejects env (handle c) = Some detail →
  ConsoleError ("Failed to destroy client for token " +:+ token +:+ ": "
                +:+ detail) ∈ actions (removeSession env token w).2.
Proof.
  intros H Hd. unfold_manager. simpl. rewrite H, Hd. simpl.
  unfold actions.
  case_bool_decide; [destruct (rm_throws env _)|]; simpl;
    rewrite !fmap_app; set_solver.
Qed.

Lemma removeSession_logs_rm (env : Env) (token : string) (w : World)
  (c : Client) (detail : string) :
  clients (mgr w) !! token = Some c →
  authDir env token ∈ authDirs w →
  rm_throws env (authDir env token) = Some detail →
  ConsoleError ("Failed to remove auth folder for token " +:+ token +:+ ": "
                +:+ detail) ∈ actions (removeSession env token w).2.
Proof.
  intros H Hin Hd. unfold_manager. simpl. rewrite H.
  unfold actions.
  destruct (destroy_rejects env (handle c)); simpl;
    (rewrite bool_decide_eq_true_2 by done); rewrite Hd; simpl;
    rewrite !fmap_app; set_solver.
Qed.

(** With a failing [rmSync] the session is removed and the call returns,
    but the directory it was to remove is still on disk. *)
Lemma failed_deletion_leaves_directory :
  let w := run [initializeClient "T"] (boot {[authDir stuck "T"]} []) in
  (removeSession stuck "T" w).1 = Ok tt
  ∧ clients (mgr (removeSession stuck "T" w).2) !! "T" = None
  ∧ authDir stuck "T" ∈ authDirs (removeSession stuck "T" w).2.
Proof.
  split; [reflexivity|]. split; [reflexivity|].
  erewrite removeSession_disk by reflexivity.
  change (authDir stuck "T" ∈ ({[authDir stuck "T"]} : gset string)).
  by apply elem_of_singleton.
Qed.

(** [removeSession] on a token with a client always returns: the entries
    of the token in the three maps are gone, a second [removeSession] throws
    "Client not found." and changes nothing, a rejected [destroy] and a
    throwing [rmSync] are logged and not rethrown.  The directory it looks
    for is gone afterwards when [rmSync] did not throw; when it threw, the
    disk is as it was. *)
Lemma removeSession_completes (env : Env) (w : World) (token : string)
  (c : Client) :
  clients (mgr w) !! token = Some c →
  let w1 := (removeSession env token w).2 in
  (removeSession env token w).1 = Ok tt
  ∧ clients (mgr w1) !! token = None
  ∧ qrCodes (mgr w1) !! token = None
  ∧ statuses (mgr w1) !! token = None
  ∧ removeSession env token w1 = (Err NotFound, w1)
  ∧ (∀ detail, destroy_rejects env (handle c) = Some detail →
       ConsoleError ("Failed to destroy client for token " +:+ token +:+ ": "
                     +:+ detail) ∈ actions w1)
  ∧ (rm_throws env (authDir env token) = None →
       authDir env token ∉ authDirs w1)
  ∧ (∀ detail, rm_throws env (authDir env token) = Some detail →
       authDirs w1 = authDirs w
       ∧ (authDir env token ∈ authDirs w →
          ConsoleError ("Failed to remove auth folder for token " +:+ token
                        +:+ ": " +:+ detail) ∈ actions w1)).
Proof.
  intros H w1. subst w1.
  destruct (removeSession_mgr env token w c H) as [Hok Hm].
  pose proof (removeSession_disk env token w c H) as Hd.
  assert (clients (mgr (removeSession env token w).2) !! token = None) as Hc.
  { rewrite Hm. apply lookup_delete_eq. }
  split; [done|]. split; [done|].
  split; [rewrite Hm; apply lookup_delete_eq|].
  split; [rewrite Hm; apply lookup_delete_eq|].
  split; [by apply removeSession_unknown|].
  split; [intros; by eapply removeSession_logs_destroy|].
  split.
  - intros Hrm. rewrite Hd, Hrm.
    intros [_ Hn]%elem_of_difference. by apply Hn, elem_of_singleton.
  - intros detail Hrm. rewrite Hd, Hrm. split; [done|].
    intros Hin. by eapply removeSession_logs_rm.
Qed.

(** In the oldest [removeSession] a rejected [logout] is rethrown and the
    session stays. *)
Lemma removeSession_uncaught_logout (env : Env) (token detail : string)
  (w : World) (c : Client) :
  clients (mgr w) !! token = Some c →
  logout_rejects env (handle c) = Some detail →
  (removeSession_uncaught env token w).1 = Err (External detail)
  ∧ mgr (removeSession_uncaught env token w).2 = mgr w.
Proof. intros H Hd. unfold_manager. simpl. by rewrite H, Hd. Qed.

(** C4. [removeSession] on a token with a client returns, the three entries
    of the token are gone and a second call throws "Client not found."; but
    the credentials of the token stay on disk.  The client keeps them in
    [whatsapp_auth/session-<token>], and the directory [removeSession] looks
    for and removes is [whatsapp_auth/<token>], another one; when [rmSync]
    throws, that one stays as well.  In the oldest [removeSession] a
    rejected [logout] is moreover rethrown, with the session left in the
    registry. *)
Theorem C4_removal_leaves_the_credentials (env : Env) (w : World)
  (token : string) (c : Client) :
  clients (mgr w) !! token = Some c →
  credentialDir env token ∈ authDirs w →
  credentialDir env token ≠ authDir env token →
  let w1 := (removeSession env token w).2 in
  (removeSession env token w).1 = Ok tt
  ∧ clients (mgr w1) !! token = None
  ∧ qrCodes (mgr w1) !! token = None
  ∧ statuses (mgr w1) !! token = None
  ∧ removeSession env token w1 = (Err NotFound, w1)
  ∧ credentialDir env token ∈ authDirs w1
  ∧ (∀ detail, rm_throws env (authDir env token) = Some detail →
       authDirs w1 = authDirs w)
  ∧ (∀ detail, logout_rejects env (handle c) = Some detail →
       (removeSession_uncaught env token w).1 = Err (External detail)
       ∧ clients (mgr (removeSession_uncaught env token w).2) !! token
         = Some c).
Proof.
  intros H Hin Hne w1. subst w1.
  destruct (removeSession_mgr env token w c H) as [Hok Hm].
  pose proof (removeSession_disk env token w c H) as Hd.
  assert (clients (mgr (removeSession env token w).2) !! token = None) as Hc.
  { rewrite Hm. apply lookup_delete_eq. }
  split; [done|]. split; [done|].
  split; [rewrite Hm; apply lookup_delete_eq|].
  split; [rewrite Hm; apply lookup_delete_eq|].
  split; [by apply removeSession_unknown|].
  split; [|split].
  - rewrite Hd. destruct (rm_throws env (authDir env token)); [done|].
    apply elem_of_difference. split; [done|].
    intros Heq%elem_of_singleton. by apply Hne.
  - intros detail Hrm. by rewrite Hd, Hrm.
  - intros detail Hl.
    destruct (removeSession_uncaught_logout env token detail w c H Hl)
      as [-> ->]. done.
Qed.

(** The oldest [removeSession] rethrows a failed [logout] and keeps the
    session. *)
Lemma removeSession_uncaught_propagates :
  let w := run [initializeClient "T"] (boot ∅ []) in
  (removeSession_uncaught stuck "T" w).1
    = Err (External "Protocol error: Target closed")
  ∧ is_Some (clients (mgr (removeSession_uncaught stuck "T" w).2) !! "T").
Proof. split; [reflexivity|]. by eexists. Qed.

(** ** Tokens without a session *)

Lemma sendText_mgr (env : Env) (token number message : string) (w : World) :
  mgr (sendText env token number message w).2 = mgr w.
Proof.
  unfold_manager. simpl. destruct (clients (mgr w) !! token); [|done].
  destruct (negb _); [done|]. simpl. by destruct (send_rejects _ _ _).
Qed.

Lemma sendImage_mgr (env : Env) (token number imageUrl : string)
  (caption : option string) (w : World) :
  mgr (sendImage env token number imageUrl caption w).2 = mgr w.
Proof.
  unfold_manager. simpl. destruct (clients (mgr w) !! token); [|done].
  destruct (negb _); [done|]. simpl.
  destruct (get_rejects _ _); [done|]. simpl. by destruct (send_rejects _ _ _).
Qed.

(** C10. [getStatus] and [getQRCode] are lookups with a default, but a
    token without a session does not always get the defaults.  The
    listeners of a client stay attached when its session is removed, and
    [removeSession] purges the token also when [destroy] was rejected, that
    is, when the client is still running.  After [initializeClient] and such
    a [removeSession] the token has no session and both queries return
    their defaults; a ['ready'] event of the old client then makes
    [getStatus] return ["authenticated"], and a ['qr'] event makes
    [getQRCode] return its code, for a token that still has no session. *)
Theorem C10_late_event_revives_a_removed_token (env : Env)
  (dirs : gset string) (events : list (list (string * client_event)))
  (token detail qr : string) :
  valid_clientId token = true →
  destroy_rejects env 0 = Some detail →
  qr ≠ "" →
  qr_overflows env qr = None →
  let removed := run [initializeClient token; removeSession env token]
                   (boot dirs events) in
  let ready := (on_event env token Ready removed).2 in
  let offered := (on_event env token (Qr qr) removed).2 in
  has_session (mgr removed) token = false
  ∧ getStatus (mgr removed) token = "unknown"
  ∧ getQRCode (mgr removed) token = None
  ∧ ConsoleError ("Failed to destroy client for token " +:+ token +:+ ": "
                  +:+ detail) ∈ actions removed
  ∧ reachable env ready
  ∧ has_session (mgr ready) token = false
  ∧ getStatus (mgr ready) token = "authenticated"
  ∧ reachable env offered
  ∧ has_session (mgr offered) token = false
  ∧ getQRCode (mgr offered) token = Some qr
  ∧ "unknown" ∉ lifecycle_statuses.
Proof.
  intros Hv Hd Hqr Hfit removed ready offered.
  subst ready offered removed. cbn [run].
  set (created := (initializeClient token (boot dirs events)).2).
  pose proof (initializeClient_new token (boot dirs events) Hv
                (lookup_empty _)) as Hinit.
  assert (clients (mgr created) !! token
          = Some {| handle := 0; clientId := token |}) as Hc.
  { subst created. rewrite Hinit. cbn. apply lookup_insert_eq. }
  destruct (removeSession_mgr env token created
              {| handle := 0; clientId := token |} Hc) as [_ Hm].
  set (removed := (removeSession env token created).2) in *.
  assert (has_session (mgr removed) token = false) as Hgone.
  { unfold has_session. apply bool_decide_eq_false_2.
    rewrite Hm. cbn. rewrite lookup_delete_eq. by intros [? ?]. }
  assert (attached token removed = true) as Ha.
  { assert (attached token created = true) as Ha
      by by apply attached_initialized.
    unfold attached in *. unfold actions in *. subst removed.
    revert Ha. generalize created. intros w0. unfold_manager. simpl.
    destruct (clients (mgr w0) !! token); [|done].
    destruct (destroy_rejects env (handle c)); simpl;
      (case_bool_decide; [destruct (rm_throws env _)|]; simpl);
      rewrite !fmap_app, !existsb_app; by intros ->. }
  assert (reachable env removed) as Hr.
  { exists dirs, events.
    eapply rtc_l; [apply (step_initialize env token)|].
    eapply rtc_l; [apply (step_remove env token)|]. apply rtc_refl. }
  assert (∀ ev, reachable env (on_event env token ev removed).2) as Hlate.
  { intros ev. destruct Hr as (d & e & Hrtc). exists d, e.
    eapply rtc_r; [exact Hrtc|]. by apply step_event. }
  split; [done|].
  split; [apply getStatus_absent; rewrite Hm; apply lookup_delete_eq|].
  split; [apply getQRCode_absent; rewrite Hm; apply lookup_delete_eq|].
  split; [by apply (removeSession_logs_destroy env token created
                      {| handle := 0; clientId := token |} detail)|].
  split; [apply Hlate|].
  destruct (on_event_mgr env token Ready removed) as [_ Hready].
  destruct (on_event_mgr env token (Qr qr) removed) as [_ Hoffered].
  rewrite Hfit in Hoffered.
  split; [unfold has_session in *; by rewrite Hready|].
  split; [rewrite Hready; by apply getStatus_insert|].
  split; [apply Hlate|].
  split; [unfold has_session in *; by rewrite Hoffered|].
  split; [rewrite Hoffered; by apply getQRCode_set|].
  unfold lifecycle_statuses. rewrite !not_elem_of_cons.
  repeat split; try done. apply not_elem_of_nil.
Qed.

(** ** Waiting for a code *)

Lemma slept_app (a b : list effect) : slept (a ++ b) = slept a + slept b.
Proof.
  induction a as [|e a IH]; [done|].
  destruct e; cbn [slept app]; lia.
Qed.

Lemma within_weaken {A} (a b : nat) (c : M A) :
  a ≤ b → within a c → within b c.
Proof. intros Hle H w. destruct (H w) as (es & ? & ?). exists es. split; [done|lia]. Qed.

Lemma within_state {A} (c : M A) :
  (∀ w, trace (c w).2 = trace w) → within 0 c.
Proof.
  intros H w. exists []. unfold actions. rewrite H, app_nil_r. done.
Qed.

Lemma within_ret {A} (a : A) : within 0 (ret a).
Proof. by apply within_state. Qed.

Lemma within_throw {A} (e : error) : within 0 (throw e : M A).
Proof. by apply within_state. Qed.

Lemma within_get_mgr : within 0 get_mgr.
Proof. by apply within_state. Qed.

Lemma within_put_mgr (m : ClientManager) : within 0 (put_mgr m).
Proof. by apply within_state. Qed.

Lemma within_perform (e : effect) :
  within (slept [e]) (perform e).
Proof.
  intros w. exists [e]. split; [|done].
  unfold actions, perform. cbn. by rewrite fmap_app.
Qed.

Lemma within_bind {A B} (a b : nat) (c : M A) (k : A → M B) :
  within a c → (∀ x, within b (k x)) → within (a + b) (bind c k).
Proof.
  intros Hc Hk w. unfold bind. destruct (Hc w) as (es & He & Hs).
  destruct (c w) as [[x|e] w1]; cbn [snd] in *.
  - destruct (Hk x w1) as (es' & He' & Hs').
    exists (es ++ es')%list. rewrite He', He, slept_app, app_assoc.
    split; [done|lia].
  - exists es. split; [done|lia].
Qed.

Lemma within_try_catch {A} (a b : nat) (body : M A) (handler : error → M A) :
  within a body → (∀ e, within b (handler e)) →
  within (a + b) (try_catch body handler).
Proof.
  intros Hc Hk w. unfold try_catch. destruct (Hc w) as (es & He & Hs).
  destruct (body w) as [[x|e] w1]; cbn [snd] in *.
  - exists es. split; [done|lia].
  - destruct (Hk e w1) as (es' & He' & Hs').
    exists (es ++ es')%list. rewrite He', He, slept_app, app_assoc.
    split; [done|lia].
Qed.

Lemma quiet_bind {A B} (c : M A) (k : A → M B) :
  within 0 c → (∀ x, within 0 (k x)) → within 0 (bind c k).
Proof. apply (within_bind 0 0). Qed.

Lemma quiet_try_catch {A} (body : M A) (handler : error → M A) :
  within 0 body → (∀ e, within 0 (handler e)) →
  within 0 (try_catch body handler).
Proof. apply (within_try_catch 0 0). Qed.

Lemma quiet_perform (e : effect) : slept [e] = 0 → within 0 (perform e).
Proof. intros <-. apply within_perform. Qed.

(** One step of a proof that a computation does not sleep. *)
Ltac quiet_step :=
  first
    [ apply quiet_bind; [|intros ?]
    | apply quiet_try_catch; [|intros ?]
    | apply within_ret
    | apply within_throw
    | apply within_get_mgr
    | apply within_put_mgr
    | apply quiet_perform; reflexivity
    | apply within_state; reflexivity
    | match goal with
      | |- within 0 (match ?x with _ => _ end) => destruct x
      end ].

Ltac quiet :=
  intros;
  unfold sendText, sendImage, removeSession, removeSession_uncaught, on_event,
    qrcode_generate, sendImage_begin, sendImage_resume,
    set_client, set_status, set_qr, delete_qr, delete_client, delete_status,
    client_initialize, client_destroy, client_logout, client_sendMessage,
    console_log, console_error, emit, fs_existsSync, fs_rmSync,
    fetchImageFromUrl, outcome;
  repeat quiet_step.

Lemma on_event_quiet (env : Env) (token : string) (ev : client_event) :
  within 0 (on_event env token ev).
Proof. destruct ev; quiet. Qed.

Lemma listen_quiet (env : Env) (token : string) (ev : client_event) :
  within 0 (listen env token ev).
Proof.
  intros w. unfold listen. destruct (attached token w).
  - apply (quiet_try_catch (on_event env token ev) (λ _, ret tt));
      [apply on_event_quiet|intros _; apply within_ret].
  - exists []. by rewrite app_nil_r.
Qed.

Lemma deliver_quiet (env : Env) (batch : list (string * client_event)) :
  within 0 (deliver env batch).
Proof.
  induction batch as [|[token ev] batch IH]; cbn [deliver]; [quiet|].
  apply quiet_bind; [apply listen_quiet|done].
Qed.

Lemma new_Client_quiet (token : string) : within 0 (new_Client token).
Proof.
  unfold new_Client. destruct (valid_clientId token); [|apply within_throw].
  intros w. exists [NewClient (next_handle w) token]. split; [|done].
  unfold actions. cbn. by rewrite fmap_app.
Qed.

Lemma initializeClient_quiet (token : string) :
  within 0 (initializeClient token).
Proof.
  unfold initializeClient. apply quiet_bind; [quiet|]. intros m.
  destruct (bool_decide _); [quiet|].
  apply quiet_bind; [apply new_Client_quiet|quiet].
Qed.

Lemma removeSession_quiet (env : Env) (token : string) :
  within 0 (removeSession env token).
Proof.
  quiet.
Qed.

Lemma sleep_within (env : Env) (ms : nat) : within ms (sleep env ms).
Proof.
  unfold sleep. apply (within_weaken (slept [Sleep ms] + 0)); [cbn; lia|].
  apply within_bind; [apply within_perform|]. intros _ w.
  destruct (inbox w) as [|batch later] eqn:E.
  - exists []. by rewrite app_nil_r.
  - destruct (deliver_quiet env batch (with_inbox later w)) as (es & He & Hs).
    exists es. by rewrite He.
Qed.

Lemma within_bind_le {A B} (a b n : nat) (c : M A) (k : A → M B) :
  within a c → (∀ x, within b (k x)) → a + b ≤ n → within n (bind c k).
Proof.
  intros Hc Hk Hle. apply (within_weaken (a + b)); [done|].
  by apply within_bind.
Qed.

Lemma within_ret_le {A} (n : nat) (a : A) : within n (ret a).
Proof. apply (within_weaken 0); [lia|apply within_ret]. Qed.

Lemma poll_qr_within (env : Env) (token : string) (remaining : nat)
  (qr : option string) :
  within (remaining * delay) (poll_qr env token qr remaining).
Proof.
  revert qr. induction remaining as [|n IH]; intros qr.
  - destruct qr; apply within_ret_le.
  - destruct qr as [code|]; cbn [poll_qr]; [apply within_ret_le|].
    apply (within_bind_le delay (n * delay)); [apply sleep_within| |lia].
    intros _.
    apply (within_bind_le 0 (n * delay)); [apply within_get_mgr| |lia].
    intros m. apply IH.
Qed.

(** [GET /qr/:token] sleeps ten times one second at most. *)
Lemma get_qr_within (env : Env) (token : string) :
  within (maxAttempts * delay) (get_qr env token).
Proof.
  unfold get_qr.
  apply (within_bind_le 0 (maxAttempts * delay));
    [apply within_get_mgr| |lia].
  intros m.
  destruct (negb _); [apply within_ret_le|].
  destruct (String.eqb _ _); [apply within_ret_le|].
  apply (within_bind_le 0 (maxAttempts * delay)); [| |lia].
  - destruct (_ || _); [|apply within_ret].
    apply quiet_try_catch; [|quiet].
    apply quiet_bind; [apply removeSession_quiet|]. intros _.
    apply quiet_bind; [apply initializeClient_quiet|]. intros _.
    apply within_ret.
  - intros [response|]; [apply within_ret_le|].
    apply (within_bind_le 0 (maxAttempts * delay));
      [apply within_get_mgr| |lia].
    intros m'.
    apply (within_bind_le (maxAttempts * delay) 0);
      [apply poll_qr_within| |lia].
    intros [code|]; apply within_ret.
Qed.

Lemma responds_ret {A} (a : A) : responds (ret a).
Proof. intros w. by exists a. Qed.

Lemma responds_bind {A B} (c : M A) (k : A → M B) :
  responds c → (∀ x, responds (k x)) → responds (bind c k).
Proof.
  intros Hc Hk w. unfold bind. destruct (Hc w) as [x Hx].
  destruct (c w) as [r w1]. cbn in Hx. subst r. apply Hk.
Qed.

Lemma responds_try_catch {A} (body : M A) (handler : error → M A) :
  (∀ e, responds (handler e)) → responds (try_catch body handler).
Proof.
  intros Hk w. unfold try_catch. destruct (body w) as [[x|e] w1].
  - by exists x.
  - apply Hk.
Qed.

Lemma responds_perform (e : effect) : responds (perform e).
Proof. intros w. by exists tt. Qed.

(** A listener that throws does not make the waiting handler throw. *)
Lemma listen_responds (env : Env) (token : string) (ev : client_event) :
  responds (listen env token ev).
Proof.
  intros w. unfold listen. destruct (attached token w); [|by exists tt].
  apply (responds_try_catch (on_event env token ev) (λ _, ret tt)).
  intros _. apply responds_ret.
Qed.

Lemma deliver_responds (env : Env) (batch : list (string * client_event)) :
  responds (deliver env batch).
Proof.
  induction batch as [|[token ev] batch IH]; cbn [deliver].
  - apply responds_ret.
  - apply responds_bind; [apply listen_responds|done].
Qed.

Lemma sleep_responds (env : Env) (ms : nat) : responds (sleep env ms).
Proof.
  unfold sleep. apply responds_bind; [apply responds_perform|].
  intros _ w. destruct (inbox w); [by exists tt|apply deliver_responds].
Qed.

Lemma poll_qr_responds (env : Env) (token : string) (remaining : nat)
  (qr : option string) :
  responds (poll_qr env token qr remaining).
Proof.
  revert qr. induction remaining as [|n IH]; intros qr.
  - destruct qr; apply responds_ret.
  - destruct qr as [code|]; cbn [poll_qr]; [apply responds_ret|].
    apply responds_bind; [apply sleep_responds|]. intros _.
    apply responds_bind; [intros w; by eexists|]. intros m. apply IH.
Qed.

(** X21. [GET /qr/:token] always answers, after at most ten seconds
    asleep. *)
Lemma get_qr_answers_within_ten_seconds (env : Env) (token : string) :
  responds (get_qr env token)
  ∧ within (maxAttempts * delay) (get_qr env token).
Proof.
  split; [|apply get_qr_within].
  unfold get_qr. apply responds_bind; [intros w; by eexists|]. intros m.
  destruct (negb _); [apply responds_ret|].
  destruct (String.eqb _ _); [apply responds_ret|].
  apply responds_bind.
  - destruct (_ || _); [|apply responds_ret].
    apply responds_try_catch. intros e.
    apply responds_bind; [apply responds_perform|]. intros _.
    apply responds_ret.
  - intros [response|]; [apply responds_ret|].
    apply responds_bind; [intros w; by eexists|]. intros m'.
    apply responds_bind; [apply poll_qr_responds|].
    intros [code|]; apply responds_ret.
Qed.

(** A session that never receives a code: the tenth poll gives up with
    500 "QR code not available yet. Please try again shortly.". *)
Lemma get_qr_times_out :
  let w := run [initializeClient "T"] (boot ∅ []) in
  (get_qr calm "T" w).1 = Ok qr_timeout
  ∧ slept (actions (get_qr calm "T" w).2) = maxAttempts * delay.
Proof. split; vm_compute; reflexivity. Qed.

(** A code that arrives during the third second is returned. *)
Lemma get_qr_returns_late_code :
  let w := run [initializeClient "T"] (boot ∅ [[]; []; [("T", Qr "2@Yx8")]]) in
  (get_qr calm "T" w).1 = Ok (respond 200 [("qr", JStr "2@Yx8")])
  ∧ slept (actions (get_qr calm "T" w).2) = 3 * delay.
Proof. split; vm_compute; reflexivity. Qed.

Lemma await_code_pending (token : string) (timeline : list (list emission)) :
  Forall (λ slice, first_code token slice = None) timeline →
  await_code token timeline = None.
Proof.
  induction 1 as [|slice later Hs _ IH]; [done|].
  cbn [await_code]. by rewrite Hs.
Qed.

Lemma valid_number_present (number : string) :
  validatePhoneNumber number = true → present (Some number) = Some number.
Proof. by destruct number. Qed.

Lemma token_present (token : string) :
  token ≠ "" → present (Some token) = Some token.
Proof. by destruct token. Qed.

(** C6. [POST /pair] with a valid number, for a token without a session
    and with an initialisation that succeeds, has sent no response at the
    end of any timeline on which the manager emits no ['code'] for the
    token, however long the timeline is: the handler awaits the event with
    no timer beside it, where [GET /qr/:token] gives up after ten polls. *)
Theorem C6_pairing_wait_has_no_timeout
  (getPairingCode : ClientManager → string → option string)
  (initializeClient_pairing : string → string → M unit)
  (number token : string) (w w' : World) (timeline : list (list emission)) :
  validatePhoneNumber number = true →
  token ≠ "" →
  has_session (mgr w) token = false →
  initializeClient_pairing token number w = (Ok tt, w') →
  Forall (λ slice, first_code token slice = None) timeline →
  post_pair getPairingCode initializeClient_pairing (Some number) (Some token)
    timeline w = (Ok None, w').
Proof.
  intros Hv Ht Hs Hi Hq. unfold post_pair.
  rewrite (valid_number_present _ Hv), (token_present _ Ht), Hv. cbn [negb].
  unfold try_catch, bind, get_mgr. rewrite Hs, Hi.
  by rewrite (await_code_pending _ _ Hq).
Qed.

(** ** Codes along orderly runs *)

Lemma getStatus_stored (m : ClientManager) (token status : string) :
  getStatus m token = status → status ≠ "unknown" →
  statuses m !! token = Some status.
Proof.
  unfold getStatus. destruct (statuses m !! token) as [s|]; [|congruence].
  destruct (truthy s); congruence.
Qed.

Lemma orderly_step_codes (env : Env) (w w' : World) :
  orderly_step env w w' →
  code_only_while_initializing (mgr w) →
  code_only_while_initializing (mgr w').
Proof.
  intros Hstep Hinv. destruct Hstep as [token w|token ev w Hlive Hok|token w].
  - destruct (clients (mgr w) !! token) eqn:Hc;
      [by rewrite initializeClient_exists|].
    destruct (valid_clientId token) eqn:Hv;
      [|by rewrite (initializeClient_invalid _ _ Hc Hv)].
    rewrite (initializeClient_new _ _ Hv Hc). intros t qr. cbn.
    destruct (decide (t = token)) as [->|Hne].
    + by rewrite lookup_insert_eq.
    + rewrite lookup_insert_ne by done. apply Hinv.
  - destruct (on_event_mgr env token ev w) as [_ ->].
    destruct ev as [code| |msg|reason|from body];
      [destruct (qr_overflows env code); [done|]| | | |];
      intros t qr; cbn in *;
      try apply Hinv;
      (destruct (decide (t = token)) as [->|Hne];
       [|rewrite ?lookup_insert_ne, ?lookup_delete_ne by done; apply Hinv]).
    + intros _. apply String.eqb_eq in Hok. by apply getStatus_stored.
    + by rewrite lookup_delete_eq.
    + by rewrite lookup_delete_eq.
    + intros Hq. apply Hinv in Hq. apply String.eqb_eq in Hok.
      apply getStatus_stored in Hok; [congruence|done].
  - destruct (clients (mgr w) !! token) as [c|] eqn:Hc.
    + destruct (removeSession_mgr env token w c Hc) as [_ ->].
      intros t qr. cbn. destruct (decide (t = token)) as [->|Hne].
      * by rewrite lookup_delete_eq.
      * rewrite !lookup_delete_ne by done. apply Hinv.
    + by rewrite removeSession_unknown.
Qed.

Lemma orderly_codes (env : Env) (dirs : gset string)
  (events : list (list (string * client_event))) (w : World) :
  rtc (orderly_step env) (boot dirs events) w →
  code_only_while_initializing (mgr w).
Proof.
  revert w. apply (rtc_ind_r (λ w, code_only_while_initializing (mgr w))).
  - by intros t qr.
  - intros y z _ Hstep IH. by eapply orderly_step_codes.
Qed.

(** X20. When the client emits its events in the order of the state
    machine (a disconnect only once authenticated), a token whose status is
    ["authenticated"], ["auth_failure"] or ["logged_out"] has no code. *)
Lemma orderly_runs_keep_codes_to_initializing (env : Env)
  (dirs : gset string) (events : list (list (string * client_event)))
  (w : World) (token : string) :
  rtc (orderly_step env) (boot dirs events) w →
  getStatus (mgr w) token ≠ "initializing" →
  getQRCode (mgr w) token = None.
Proof.
  intros Hrtc Hs. pose proof (orderly_codes env dirs events w Hrtc) as Hinv.
  unfold getQRCode.
  destruct (qrCodes (mgr w) !! token) as [qr|] eqn:Hq; [|done].
  apply Hinv in Hq. unfold getStatus in Hs. rewrite Hq in Hs. by cbn in Hs.
Qed.

(** ** The statements at concrete inputs *)

(** The number of the specification's scenario A passes the check of POST
    /sessions and cannot be given a session. *)
Lemma C1_witness :
  validatePhoneNumber "+15551234567" = true
  ∧ initializeClient "+15551234567" (boot ∅ [])
    = (Err InvalidClientId, boot ∅ []).
Proof.
  split; [reflexivity|].
  exact (proj1 (proj2 (C1_create_fails_for_unacceptable_clientId
                         (boot ∅ []) "+15551234567")) eq_refl eq_refl).
Defined.

(** A session that is still initializing cannot send. *)
Lemma C2_witness :
  let w := run [initializeClient "T2"] (boot ∅ []) in
  sendText calm "T2" "15550001111" "hi" w = (Err NotAuthenticated, w)
  ∧ sendImage calm "T2" "15550001111" "https://example.org/a.png" None w
    = (Err NotAuthenticated, w).
Proof.
  apply (proj2 (C2_send_requires_authenticated calm
                  (run [initializeClient "T2"] (boot ∅ []))
                  "T2" "15550001111" "hi" "https://example.org/a.png" None)).
  - exists {| handle := 0; clientId := "T2" |}. reflexivity.
  - vm_compute. discriminate.
Defined.

Lemma C3_witness :
  let w := run [initializeClient "T3"; on_event calm "T3" (Qr "2@Yx8");
                on_event calm "T3" (Disconnected "LOGOUT")] (boot ∅ []) in
  getStatus (mgr w) "T3" = "logged_out"
  ∧ getQRCode (mgr w) "T3" = Some "2@Yx8"
  ∧ reachable calm w.
Proof.
  destruct (C3_disconnected_session_keeps_its_code calm ∅ [] "T3" "2@Yx8"
              "LOGOUT") as (H1 & H2 & H3); [discriminate|].
  split; [exact H1|]. split; [exact H2|]. exact (H3 eq_refl).
Defined.

(** Every external call succeeds, and the credentials are still there. *)
Lemma C4_witness :
  let w := run [initializeClient "T"] (boot {[credentialDir calm "T"]} []) in
  let w1 := (removeSession calm "T" w).2 in
  credentialDir calm "T" = "/srv/app/whatsapp_auth/session-T"
  ∧ (removeSession calm "T" w).1 = Ok tt
  ∧ clients (mgr w1) !! "T" = None
  ∧ removeSession calm "T" w1 = (Err NotFound, w1)
  ∧ credentialDir calm "T" ∈ authDirs w1.
Proof.
  destruct (C4_removal_leaves_the_credentials calm
              (run [initializeClient "T"] (boot {[credentialDir calm "T"]} []))
              "T" {| handle := 0; clientId := "T" |} eq_refl)
    as (H1 & H2 & _ & _ & H5 & H6 & _).
  - change (credentialDir calm "T" ∈ ({[credentialDir calm "T"]} : gset string)).
    by apply elem_of_singleton.
  - vm_compute. discriminate.
  - split; [reflexivity|]. split; [exact H1|]. split; [exact H2|].
    split; [exact H5|exact H6].
Defined.

Lemma C5_witness :
  let created := (initializeClient "15551234567" (boot ∅ [])).2 in
  let offered := (on_event calm "15551234567" (Qr "2@Yx8") created).2 in
  let ready := (on_event calm "15551234567" Ready offered).2 in
  (initializeClient "15551234567" (boot ∅ [])).1 = Ok tt
  ∧ getStatus (mgr created) "15551234567" = "initializing"
  ∧ (on_event calm "15551234567" (Qr "2@Yx8") created).1 = Ok tt
  ∧ getQRCode (mgr offered) "15551234567" = Some "2@Yx8"
  ∧ getStatus (mgr offered) "15551234567" = "initializing"
  ∧ getQRCode (mgr ready) "15551234567" = None
  ∧ getStatus (mgr ready) "15551234567" = "authenticated".
Proof.
  apply (C5_scenario_A_statuses calm (boot ∅ []) "15551234567" "2@Yx8").
  - reflexivity.
  - reflexivity.
  - discriminate.
  - reflexivity.
Defined.

(** An hour after [POST /pair], with no code emitted, nothing has been
    answered. *)
Lemma C6_witness :
  post_pair (λ _ _, None) (λ token _, initializeClient token)
    (Some "+15551234567") (Some "T6") (replicate 3600 []) (boot ∅ [])
  = (Ok None, run [initializeClient "T6"] (boot ∅ [])).
Proof.
  apply C6_pairing_wait_has_no_timeout.
  - reflexivity.
  - discriminate.
  - reflexivity.
  - reflexivity.
  - apply Forall_replicate. reflexivity.
Defined.

(** The handshake of "T" is started before "T" is stored. *)
Lemma C7_witness :
  trace (initializeClient "T" (boot ∅ [])).2
    = [(NewClient 0 "T", empty_manager); (ClientInitialize 0, empty_manager)]
  ∧ ¬ handshake_after_store "T" (trace (initializeClient "T" (boot ∅ [])).2).
Proof.
  exact (proj1 (proj2 (proj2 (C7_handshake_started_before_store ∅ [] "T")))
           eq_refl).
Defined.

Lemma C9_witness :
  includes routing_suffix "15550001111@c.us" = true
  ∧ validatePhoneNumber "15550001111@c.us" = false.
Proof.
  split; [reflexivity|].
  exact (proj1 (C9_suffixed_recipient_is_rejected_unsent calm
                  (run [initializeClient "T9"] (boot ∅ []))
                  (Some "T9") (Some "hi") (Some "https://example.org/a.png")
                  None "15550001111@c.us" eq_refl)).
Defined.

(** Scenario E with a teardown that fails: the client of T10 is still
    running when its session is removed, and then becomes ready. *)
Lemma C10_witness :
  let removed := run [initializeClient "T10"; removeSession stuck "T10"]
                   (boot ∅ []) in
  let ready := (on_event stuck "T10" Ready removed).2 in
  has_session (mgr removed) "T10" = false
  ∧ getStatus (mgr removed) "T10" = "unknown"
  ∧ reachable stuck ready
  ∧ has_session (mgr ready) "T10" = false
  ∧ getStatus (mgr ready) "T10" = "authenticated".
Proof.
  destruct (C10_late_event_revives_a_removed_token stuck ∅ [] "T10"
              "Protocol error: Target closed" "2@Yx8" eq_refl eq_refl)
    as (H1 & H2 & _ & _ & H5 & H6 & H7 & _); [discriminate|reflexivity|].
  split; [exact H1|]. split; [exact H2|]. split; [exact H5|].
  split; [exact H6|exact H7].
Defined.

(** * Further properties *)

(** ** Reachable worlds *)

Lemma reachable_ind (env : Env) (P : World → Prop) :
  (∀ dirs events, P (boot dirs events)) →
  (∀ w w', step env w w' → P w → P w') →
  ∀ w, reachable env w → P w.
Proof.
  intros Hboot Hstep w (dirs & events & Hrtc). revert w Hrtc.
  apply (rtc_ind_r P); [apply Hboot|].
  intros y z _ Hyz Hy. by eapply Hstep.
Qed.

Lemma on_event_frame (env : Env) (token : string) (ev : client_event)
  (w : World) :
  next_handle (on_event env token ev w).2 = next_handle w
  ∧ authDirs (on_event env token ev w).2 = authDirs w.
Proof.
  destruct ev; try done.
  unfold_manager. simpl. by destruct (qr_overflows env qr).
Qed.

Lemma sendImage_begin_frame (token imageUrl : string) (w : World) :
  mgr (sendImage_begin token imageUrl w).2 = mgr w
  ∧ next_handle (sendImage_begin token imageUrl w).2 = next_handle w.
Proof.
  unfold_manager. simpl. destruct (clients (mgr w) !! token); [|done].
  by destruct (negb _).
Qed.

Lemma sendImage_resume_frame (env : Env) (client : Client)
  (number imageUrl : string) (caption : option string) (w : World) :
  mgr (sendImage_resume env client number imageUrl caption w).2 = mgr w
  ∧ next_handle (sendImage_resume env client number imageUrl caption w).2
    = next_handle w.
Proof.
  unfold_manager. simpl. destruct (get_rejects _ _); [done|]. simpl.
  by destruct (send_rejects _ _ _).
Qed.

Lemma removeSession_begin_frame (token : string) (w : World) :
  mgr (removeSession_begin token w).2 = mgr w
  ∧ next_handle (removeSession_begin token w).2 = next_handle w.
Proof.
  unfold_manager. simpl. by destruct (clients (mgr w) !! token).
Qed.

Lemma removeSession_resume_frame (env : Env) (client : Client)
  (token : string) (w : World) :
  mgr (removeSession_resume env client token w).2
    = {| clients := delete token (clients (mgr w));
         qrCodes := delete token (qrCodes (mgr w));
         statuses := delete token (statuses (mgr w)) |}
  ∧ next_handle (removeSession_resume env client token w).2 = next_handle w.
Proof.
  unfold_manager. simpl.
  destruct (destroy_rejects env (handle client)); simpl;
    (case_bool_decide; [destruct (rm_throws env _)|]; by simpl).
Qed.

(** [removeSession] is its two halves run without interruption. *)
Lemma removeSession_split (env : Env) (token : string) (w : World) :
  removeSession env token w
  = (client <- removeSession_begin token ;;
     removeSession_resume env client token) w.
Proof.
  unfold_manager. simpl. destruct (clients (mgr w) !! token) as [c|]; [|done].
  by destruct (destroy_rejects env (handle c)).
Qed.

(** [sendImage] is its two halves run without interruption. *)
Lemma sendImage_split (env : Env) (token number imageUrl : string)
  (caption : option string) (w : World) :
  sendImage env token number imageUrl caption w
  = (client <- sendImage_begin token imageUrl ;;
     sendImage_resume env client number imageUrl caption) w.
Proof.
  unfold_manager. simpl. destruct (clients (mgr w) !! token); [|done].
  destruct (negb _); [done|]. simpl. by destruct (get_rejects _ _).
Qed.

Lemma sendText_frame (env : Env) (token number message : string) (w : World) :
  next_handle (sendText env token number message w).2 = next_handle w.
Proof.
  unfold_manager. simpl. destruct (clients (mgr w) !! token); [|done].
  destruct (negb _); [done|]. simpl. by destruct (send_rejects _ _ _).
Qed.

Lemma sendImage_frame (env : Env) (token number imageUrl : string)
  (caption : option string) (w : World) :
  next_handle (sendImage env token number imageUrl caption w).2
    = next_handle w.
Proof.
  unfold_manager. simpl. destruct (clients (mgr w) !! token); [|done].
  destruct (negb _); [done|]. simpl.
  destruct (get_rejects _ _); [done|]. simpl. by destruct (send_rejects _ _ _).
Qed.

Lemma removeSession_frame (env : Env) (token : string) (w : World) :
  next_handle (removeSession env token w).2 = next_handle w
  ∧ inbox (removeSession env token w).2 = inbox w.
Proof.
  unfold_manager. simpl. destruct (clients (mgr w) !! token) as [c|]; [|done].
  destruct (destroy_rejects env (handle c)); simpl;
    (case_bool_decide; [destruct (rm_throws env _)|]; by simpl).
Qed.

Lemma lifecycle_status (s : string) :
  s ∈ lifecycle_statuses ↔
  s = "initializing" ∨ s = "authenticated" ∨ s = "logged_out"
  ∨ s = "auth_failure".
Proof.
  unfold lifecycle_statuses. rewrite !elem_of_cons, elem_of_nil. tauto.
Qed.

Lemma step_sessions_have_status (env : Env) (w w' : World) :
  step env w w' → sessions_have_status (mgr w) → sessions_have_status (mgr w').
Proof.
  intros Hstep Hinv. destruct Hstep as [token w|token ev w Hlive|
    token number message w|token imageUrl w|
    token client number imageUrl caption m w _ _ _|token w|token w|
    token client m w _ _].
  - destruct (clients (mgr w) !! token) eqn:Hc;
      [by rewrite initializeClient_exists|].
    destruct (valid_clientId token) eqn:Hv;
      [|by rewrite (initializeClient_invalid _ _ Hc Hv)].
    rewrite (initializeClient_new _ _ Hv Hc). intros t c. cbn.
    destruct (decide (t = token)) as [->|Hne].
    + rewrite !lookup_insert_eq. intros _. eexists. split; [done|].
      apply lifecycle_status. tauto.
    + rewrite !lookup_insert_ne by done. apply Hinv.
  - destruct (on_event_mgr env token ev w) as [_ ->].
    destruct ev as [code| | | |];
      [destruct (qr_overflows env code); [done|]| | | |];
      intros t c; cbn; try apply Hinv;
      (destruct (decide (t = token)) as [->|Hne];
       [|rewrite ?lookup_insert_ne by done; apply Hinv]);
      rewrite lookup_insert_eq; intros Hc;
      destruct (Hinv _ _ Hc) as (s0 & Hs0 & Hl0);
      (eexists; split; [done|]);
      apply lifecycle_status; tauto.
  - by rewrite sendText_mgr.
  - by destruct (sendImage_begin_frame token imageUrl w) as [-> _].
  - by destruct (sendImage_resume_frame env client number imageUrl caption w)
      as [-> _].
  - destruct (clients (mgr w) !! token) as [c|] eqn:Hc.
    + destruct (removeSession_mgr env token w c Hc) as [_ ->].
      intros t c'. cbn. destruct (decide (t = token)) as [->|Hne].
      * by rewrite lookup_delete_eq.
      * rewrite !lookup_delete_ne by done. apply Hinv.
    + by rewrite removeSession_unknown.
  - by destruct (removeSession_begin_frame token w) as [-> _].
  - destruct (removeSession_resume_frame env client token w) as [-> _].
    intros t c'. cbn. destruct (decide (t = token)) as [->|Hne].
    + by rewrite lookup_delete_eq.
    + rewrite !lookup_delete_ne by done. apply Hinv.
Qed.

Lemma reachable_sessions_have_status (env : Env) (w : World) :
  reachable env w → sessions_have_status (mgr w).
Proof.
  revert w. apply reachable_ind.
  - by intros dirs events t c.
  - apply step_sessions_have_status.
Qed.

Lemma getStatus_of_stored (m : ClientManager) (t s : string) :
  statuses m !! t = Some s → s ∈ lifecycle_statuses → getStatus m t = s.
Proof.
  intros Hs Hl. unfold getStatus. rewrite Hs.
  apply lifecycle_status in Hl as [-> | [-> | [-> | ->]]]; reflexivity.
Qed.

Lemma elem_of_listSessions (m : ClientManager) (t : string) :
  t ∈ listSessions m ↔ is_Some (clients m !! t).
Proof.
  unfold listSessions. rewrite list_elem_of_fmap. split.
  - intros [[t' c] [-> Hin]]. apply elem_of_map_to_list in Hin. by eexists.
  - intros [c Hc]. exists (t, c). split; [done|]. by apply elem_of_map_to_list.
Qed.

(** X1. In every world the manager can reach, [GET /sessions] lists exactly
    the tokens that have a client, each once, and each with one of the four
    statuses ['initializing'], ['authenticated'], ['logged_out'],
    ['auth_failure']: a listed session is never reported as ['unknown']. *)
Theorem X1_listing_shows_lifecycle_statuses (env : Env) (w : World) :
  reachable env w →
  NoDup (sessions_listing (mgr w)).*1
  ∧ (∀ t, t ∈ (sessions_listing (mgr w)).*1 ↔ has_session (mgr w) t = true)
  ∧ (∀ t s, (t, s) ∈ sessions_listing (mgr w) →
       s ∈ lifecycle_statuses ∧ statuses (mgr w) !! t = Some s).
Proof.
  intros Hr. pose proof (reachable_sessions_have_status env w Hr) as Hinv.
  assert ((sessions_listing (mgr w)).*1 = listSessions (mgr w)) as Hfst.
  { unfold sessions_listing. rewrite <- list_fmap_compose.
    apply list_fmap_id. }
  rewrite Hfst. split; [apply listSessions_NoDup|]. split.
  - intros t. rewrite elem_of_listSessions. unfold has_session.
    by rewrite bool_decide_eq_true.
  - intros t s Hin. unfold sessions_listing in Hin.
    apply list_elem_of_fmap in Hin as (t' & [= -> ->] & Hin).
    apply elem_of_listSessions in Hin as [c Hc].
    destruct (Hinv _ _ Hc) as (s & Hs & Hl).
    by rewrite (getStatus_of_stored _ _ _ Hs Hl).
Qed.

Lemma step_clients_own_handles (env : Env) (w w' : World) :
  step env w w' → clients_own_handles w → clients_own_handles w'.
Proof.
  intros Hstep [Hown Hinj].
  destruct Hstep as [token w|token ev w Hlive|
    token number message w|token imageUrl w|
    token client number imageUrl caption m w _ _ _|token w|token w|
    token client m w _ _].
  - destruct (clients (mgr w) !! token) eqn:Hc;
      [by rewrite initializeClient_exists|].
    destruct (valid_clientId token) eqn:Hv;
      [|by rewrite (initializeClient_invalid _ _ Hc Hv)].
    rewrite (initializeClient_new _ _ Hv Hc). split; cbn.
    + intros t c. destruct (decide (t = token)) as [->|Hne].
      * rewrite lookup_insert_eq. intros [= <-]. cbn. split; [done|lia].
      * rewrite lookup_insert_ne by done. intros Ht.
        destruct (Hown _ _ Ht). split; [done|lia].
    + intros t1 t2 c1 c2.
      destruct (decide (t1 = token)) as [->|Hne1];
        destruct (decide (t2 = token)) as [->|Hne2]; [done| | |].
      * rewrite lookup_insert_eq, lookup_insert_ne by done.
        intros [= <-] H2. cbn. destruct (Hown _ _ H2). lia.
      * rewrite lookup_insert_eq, lookup_insert_ne by done.
        intros H1 [= <-]. cbn. destruct (Hown _ _ H1). lia.
      * rewrite !lookup_insert_ne by done. apply Hinj.
  - destruct (on_event_mgr env token ev w) as [_ Hm].
    destruct (on_event_frame env token ev w) as [Hn _].
    unfold clients_own_handles. rewrite Hm, Hn.
    destruct ev as [code| | | |]; [by destruct (qr_overflows env code)|..];
      done.
  - unfold clients_own_handles. by rewrite sendText_mgr, sendText_frame.
  - destruct (sendImage_begin_frame token imageUrl w) as [Hm Hn].
    unfold clients_own_handles. by rewrite Hm, Hn.
  - destruct (sendImage_resume_frame env client number imageUrl caption w)
      as [Hm Hn].
    unfold clients_own_handles. by rewrite Hm, Hn.
  - destruct (clients (mgr w) !! token) as [c|] eqn:Hc.
    + destruct (removeSession_mgr env token w c Hc) as [_ Hm].
      destruct (removeSession_frame env token w) as [Hn _].
      unfold clients_own_handles. rewrite Hm, Hn. cbn. split.
      * intros t c' [_ Ht]%lookup_delete_Some. by apply Hown.
      * intros t1 t2 c1 c2 [_ H1]%lookup_delete_Some [_ H2]%lookup_delete_Some.
        by apply Hinj.
    + by rewrite removeSession_unknown.
  - destruct (removeSession_begin_frame token w) as [Hm Hn].
    unfold clients_own_handles. by rewrite Hm, Hn.
  - destruct (removeSession_resume_frame env client token w) as [Hm Hn].
    unfold clients_own_handles. rewrite Hm, Hn. cbn. split.
    + intros t c' [_ Ht]%lookup_delete_Some. by apply Hown.
    + intros t1 t2 c1 c2 [_ H1]%lookup_delete_Some [_ H2]%lookup_delete_Some.
      by apply Hinj.
Qed.

(** X2. In every world the manager can reach, the client stored under a
    token was created for that token ([clientId] is the token), and no
    client is stored under two tokens. *)
Theorem X2_clients_are_not_shared (env : Env) (w : World)
  (t1 t2 : string) (c1 c2 : Client) :
  reachable env w →
  clients (mgr w) !! t1 = Some c1 →
  clients (mgr w) !! t2 = Some c2 →
  clientId c1 = t1 ∧ (handle c1 = handle c2 → t1 = t2).
Proof.
  intros Hr H1 H2.
  assert (clients_own_handles w) as [Hown Hinj].
  { clear H1 H2. revert w Hr. apply reachable_ind.
    - intros dirs events. split; [by intros t c|by intros t t' c c'].
    - apply step_clients_own_handles. }
  split; [by apply Hown|]. by eapply Hinj.
Qed.

(** ** What reaches the client *)

Lemma sendText_sends (env : Env) (w : World) (c : Client)
  (token number message : string) :
  clients (mgr w) !! token = Some c →
  getStatus (mgr w) token = "authenticated" →
  sendText env token number message w =
    (match send_rejects env (handle c) (chatId number) with
     | Some detail => Err (External detail)
     | None => Ok tt
     end,
     with_trace
       (trace w ++ [(SendMessage (handle c) (chatId number) (Text message),
                     mgr w)]) w).
Proof.
  intros Hc Hs. unfold_manager. simpl. rewrite Hc, Hs. simpl.
  by destruct (send_rejects _ _ _).
Qed.

Lemma sendImage_sends (env : Env) (w : World) (c : Client)
  (token number imageUrl : string) (caption : option string) :
  clients (mgr w) !! token = Some c →
  getStatus (mgr w) token = "authenticated" →
  sendImage env token number imageUrl caption w =
    if get_rejects env imageUrl
    then (Err FetchFailed, with_trace (trace w ++ [(HttpGet imageUrl, mgr w)]) w)
    else
      (match send_rejects env (handle c) (chatId number) with
       | Some detail => Err (External detail)
       | None => Ok tt
       end,
       with_trace
         ((trace w ++ [(HttpGet imageUrl, mgr w)])
          ++ [(SendMessage (handle c) (chatId number)
                 (Media imageUrl (default "" caption)), mgr w)]) w).
Proof.
  intros Hc Hs. unfold_manager. simpl. rewrite Hc, Hs. simpl.
  destruct (get_rejects _ _); [done|]. simpl.
  by destruct (send_rejects _ _ _).
Qed.

(** X3. [sendText] on an authenticated session hands exactly one message
    to the client of that session, addressed to the normalised recipient,
    and changes nothing else; it returns when the client accepts the
    message and rethrows the client's error when it does not. *)
Theorem X3_sendText_delivers_once (env : Env) (w : World) (c : Client)
  (token number message : string) :
  clients (mgr w) !! token = Some c →
  getStatus (mgr w) token = "authenticated" →
  let r := sendText env token number message w in
  actions r.2 =
    (actions w ++ [SendMessage (handle c) (chatId number) (Text message)])%list
  ∧ mgr r.2 = mgr w ∧ authDirs r.2 = authDirs w
  ∧ (send_rejects env (handle c) (chatId number) = None → r.1 = Ok tt)
  ∧ (∀ detail, send_rejects env (handle c) (chatId number) = Some detail →
       r.1 = Err (External detail)).
Proof.
  intros Hc Hs r. subst r. rewrite (sendText_sends env w c) by done.
  cbn [fst snd]. unfold actions. cbn. rewrite fmap_app.
  split; [done|]. split; [done|]. split; [done|].
  split; [by intros ->|by intros detail ->].
Qed.

(** X4. [sendImage] on an authenticated session downloads the image first.
    When the download fails it throws "Failed to fetch image from URL."
    and nothing is handed to the client; otherwise exactly one media
    message goes to the normalised recipient, with the empty caption when
    none was given. *)
Theorem X4_sendImage_downloads_before_sending (env : Env) (w : World)
  (c : Client) (token number imageUrl : string) (caption : option string) :
  clients (mgr w) !! token = Some c →
  getStatus (mgr w) token = "authenticated" →
  let r := sendImage env token number imageUrl caption w in
  (get_rejects env imageUrl = true →
     r.1 = Err FetchFailed
     ∧ actions r.2 = (actions w ++ [HttpGet imageUrl])%list)
  ∧ (get_rejects env imageUrl = false →
     actions r.2 =
       (actions w ++ [HttpGet imageUrl;
                      SendMessage (handle c) (chatId number)
                        (Media imageUrl (default "" caption))])%list
     ∧ (send_rejects env (handle c) (chatId number) = None → r.1 = Ok tt)
     ∧ (∀ detail, send_rejects env (handle c) (chatId number) = Some detail →
          r.1 = Err (External detail))).
Proof.
  intros Hc Hs r. subst r. rewrite (sendImage_sends env w c) by done.
  split; intros ->; cbn [fst snd]; unfold actions; cbn.
  - by rewrite fmap_app.
  - rewrite !fmap_app, <- app_assoc.
    split; [done|]. split; [by intros ->|by intros detail ->].
Qed.

(** ** Traces *)

Lemma appends_state {A} (P : effect * ClientManager → Prop) (c : M A) :
  (∀ w, trace (c w).2 = trace w) → appends P c.
Proof. intros H w. exists []. by rewrite H, app_nil_r. Qed.

Lemma appends_perform (P : effect * ClientManager → Prop) (e : effect) :
  (∀ m, P (e, m)) → appends P (perform e).
Proof. intros H w. exists [(e, mgr w)]. split; [done|]. by constructor. Qed.

Lemma appends_bind {A B} (P : effect * ClientManager → Prop) (c : M A)
  (k : A → M B) :
  appends P c → (∀ x, appends P (k x)) → appends P (bind c k).
Proof.
  intros Hc Hk w. unfold bind. destruct (Hc w) as (new & He & Hp).
  destruct (c w) as [[x|e] w1]; cbn [snd] in *.
  - destruct (Hk x w1) as (new' & He' & Hp').
    exists (new ++ new')%list. rewrite He', He, app_assoc.
    split; [done|]. by apply Forall_app.
  - by exists new.
Qed.

Lemma appends_try_catch {A} (P : effect * ClientManager → Prop) (body : M A)
  (handler : error → M A) :
  appends P body → (∀ e, appends P (handler e)) →
  appends P (try_catch body handler).
Proof.
  intros Hc Hk w. unfold try_catch. destruct (Hc w) as (new & He & Hp).
  destruct (body w) as [[x|e] w1]; cbn [snd] in *.
  - by exists new.
  - destruct (Hk e w1) as (new' & He' & Hp').
    exists (new ++ new')%list. rewrite He', He, app_assoc.
    split; [done|]. by apply Forall_app.
Qed.

(** One step of a proof that a computation hands nothing to a client. *)
Ltac appends_step :=
  first
    [ apply appends_bind; [|intros ?]
    | apply appends_try_catch; [|intros ?]
    | apply appends_perform; intros ?; exact I
    | apply appends_state; reflexivity
    | match goal with
      | |- appends _ (match ?x with _ => _ end) => destruct x
      end ].

Ltac appends_auto :=
  intros;
  unfold removeSession, removeSession_begin, removeSession_resume, on_event,
    set_client, set_status, set_qr, delete_qr, delete_client, delete_status,
    client_initialize, client_destroy, console_log, console_error, emit,
    fs_existsSync, fs_rmSync, outcome, ret, throw, get_mgr, put_mgr;
  repeat appends_step.


Lemma initializeClient_appends (token : string) :
  appends not_a_send (initializeClient token).
Proof.
  unfold initializeClient. apply appends_bind; [appends_auto|]. intros m.
  destruct (bool_decide _); [appends_auto|].
  apply appends_bind; [|appends_auto].
  unfold new_Client. destruct (valid_clientId token); [|appends_auto].
  intros w. exists [(NewClient (next_handle w) token, mgr w)].
  split; [done|]. by constructor.
Qed.






Lemma sendImage_refused (env : Env) (w : World) (c : Client)
  (token number imageUrl : string) (caption : option string) :
  clients (mgr w) !! token = Some c →
  getStatus (mgr w) token ≠ "authenticated" →
  sendImage env token number imageUrl caption w = (Err NotAuthenticated, w).
Proof.
  intros Hc Hs. unfold_manager. simpl.
  by rewrite Hc, (not_authenticated _ Hs).
Qed.







(** ** Order of teardown *)

Lemma has_session_deleted (token : string) (c : gmap string Client)
  (q s : gmap string string) :
  has_session {| clients := delete token c; qrCodes := q; statuses := s |}
    token = false.
Proof.
  unfold has_session. apply bool_decide_eq_false_2. cbn.
  rewrite lookup_delete_eq. by intros [? ?].
Qed.

(** X6. [removeSession] on a token with a client destroys the client while
    the session is still registered, and looks at the directory of the token
    (and removes it) only after the three entries of the token are gone. *)
Theorem X6_teardown_precedes_purge (env : Env) (w : World) (token : string)
  (c : Client) :
  clients (mgr w) !! token = Some c →
  ∃ rest,
    trace (removeSession env token w).2 =
      (trace w ++ (ClientDestroy (handle c), mgr w) :: rest)%list
    ∧ Forall (teardown_order token) ((ClientDestroy (handle c), mgr w) :: rest)
    ∧ (ExistsSync (authDir env token),
       {| clients := delete token (clients (mgr w));
          qrCodes := delete token (qrCodes (mgr w));
          statuses := delete token (statuses (mgr w)) |}) ∈ rest.
Proof.
  intros Hc.
  assert (has_session (mgr w) token = true) as Hs.
  { unfold has_session. apply bool_decide_eq_true_2. by eexists. }
  unfold_manager. simpl. rewrite Hc.
  destruct (destroy_rejects env (handle c)); simpl;
    (case_bool_decide; [destruct (rm_throws env _)|]; simpl);
    rewrite <- ?app_assoc; (eexists; split; [reflexivity|]);
    (split; [repeat constructor; cbn; first [done|apply has_session_deleted]
            |set_solver]).
Qed.

(** ** Creating and removing sessions over HTTP *)

Lemma has_session_true (m : ClientManager) (token : string) :
  has_session m token = true ↔ ∃ c, clients m !! token = Some c.
Proof. unfold has_session. by rewrite bool_decide_eq_true. Qed.

Lemma has_session_false (m : ClientManager) (token : string) :
  has_session m token = false ↔ clients m !! token = None.
Proof.
  unfold has_session. rewrite bool_decide_eq_false.
  rewrite <- eq_None_not_Some. done.
Qed.

(** [removeSession] on a token with a client, as one equation. *)
Lemma removeSession_live (env : Env) (token : string) (w : World) (c : Client) :
  clients (mgr w) !! token = Some c →
  ∃ w1, removeSession env token w = (Ok tt, w1)
    ∧ mgr w1 = {| clients := delete token (clients (mgr w));
                  qrCodes := delete token (qrCodes (mgr w));
                  statuses := delete token (statuses (mgr w)) |}
    ∧ next_handle w1 = next_handle w
    ∧ inbox w1 = inbox w.
Proof.
  intros Hc. destruct (removeSession_mgr env token w c Hc) as [Hok Hm].
  destruct (removeSession_frame env token w) as [Hn Hi].
  destruct (removeSession env token w) as [r w1]. cbn in *. subst r.
  by exists w1.
Qed.

Lemma initializeClient_after_purge (token : string) (w1 : World)
  (c : gmap string Client) (q s : gmap string string) :
  valid_clientId token = true →
  mgr w1 = {| clients := delete token c; qrCodes := delete token q;
              statuses := delete token s |} →
  ∃ w2, initializeClient token w1 = (Ok tt, w2)
    ∧ clients (mgr w2) !! token
      = Some {| handle := next_handle w1; clientId := token |}
    ∧ getStatus (mgr w2) token = "initializing"
    ∧ getQRCode (mgr w2) token = None
    ∧ inbox w2 = inbox w1.
Proof.
  intros Hv Hm. rewrite (initializeClient_new _ _ Hv).
  2: { rewrite Hm. apply lookup_delete_eq. }
  eexists. split; [done|]. cbn. rewrite lookup_insert_eq.
  split; [done|]. split; [by apply getStatus_insert|].
  split; [|done]. apply getQRCode_absent. cbn. rewrite Hm. cbn.
  apply lookup_delete_eq.
Qed.

(** Only tokens a client could be constructed for have a session. *)
Lemma reachable_clients_valid (env : Env) (w : World) :
  reachable env w →
  ∀ t c, clients (mgr w) !! t = Some c → valid_clientId t = true.
Proof.
  revert w.
  apply (reachable_ind env (λ w, ∀ t c, clients (mgr w) !! t = Some c →
                                        valid_clientId t = true));
    [by intros dirs events t c|].
  intros w w' Hstep Hinv. destruct Hstep as [token w|token ev w Hlive|
    token number message w|token imageUrl w|
    token client number imageUrl caption m w _ _ _|token w|token w|
    token client m w _ _].
  - destruct (clients (mgr w) !! token) eqn:Hc;
      [by rewrite initializeClient_exists|].
    destruct (valid_clientId token) eqn:Hv;
      [|by rewrite (initializeClient_invalid _ _ Hc Hv)].
    rewrite (initializeClient_new _ _ Hv Hc). intros t c. cbn.
    destruct (decide (t = token)) as [->|Hne]; [done|].
    rewrite lookup_insert_ne by done. apply Hinv.
  - destruct (on_event_mgr env token ev w) as [_ ->].
    destruct ev as [code| | | |]; [destruct (qr_overflows env code)|..];
      apply Hinv.
  - by rewrite sendText_mgr.
  - by destruct (sendImage_begin_frame token imageUrl w) as [-> _].
  - by destruct (sendImage_resume_frame env client number imageUrl caption w)
      as [-> _].
  - destruct (clients (mgr w) !! token) as [c|] eqn:Hc.
    + destruct (removeSession_mgr env token w c Hc) as [_ ->].
      intros t c'. cbn. intros [_ Ht]%lookup_delete_Some. by eapply Hinv.
    + by rewrite removeSession_unknown.
  - by destruct (removeSession_begin_frame token w) as [-> _].
  - destruct (removeSession_resume_frame env client token w) as [-> _].
    intros t c'. cbn. intros [_ Ht]%lookup_delete_Some. by eapply Hinv.
Qed.

(** A number that passes [validatePhoneNumber] is acceptable as a
    [clientId] exactly when it has no leading ["+"]. *)
Lemma all_digits_id_chars (s : string) :
  all_digits s = true → all_id_chars s = true.
Proof.
  induction s as [|c s IH]; [done|]. cbn [all_digits all_id_chars].
  intros [Hc Hs]%andb_true_iff. unfold is_id_char. by rewrite Hc, IH.
Qed.

Lemma national_id_chars (s : string) :
  national s = true → s ≠ "" ∧ all_id_chars s = true.
Proof.
  destruct s as [|c s]; [done|]. cbn [national all_id_chars].
  intros [[[Hc _]%andb_true_iff _]%andb_true_iff Hs]%andb_true_iff.
  split; [done|].
  rewrite (all_digits_id_chars _ Hs), andb_true_r.
  unfold is_id_char, is_digit. unfold is_digit19 in Hc.
  apply andb_true_iff in Hc as [H1 H2].
  apply Nat.leb_le in H1. rewrite H2.
  assert ((48 <=? nat_of_ascii c) = true) as -> by (apply Nat.leb_le; lia).
  done.
Qed.

Lemma valid_number_clientId (number : string) :
  validatePhoneNumber number = true →
  valid_clientId number
  = match number with
    | String "+"%char _ => false
    | _ => true
    end.
Proof.
  intros Hv. unfold valid_clientId, validatePhoneNumber in *.
  destruct number as [|c rest]; [done|].
  destruct (decide (c = "+"%char)) as [->|Hne].
  - reflexivity.
  - assert (national (String c rest) = true) as Hn.
    { revert Hv. destruct c as [[] [] [] [] [] [] [] []]; try done. }
    destruct (national_id_chars _ Hn) as [_ ->].
    rewrite orb_true_r.
    destruct c as [[] [] [] [] [] [] [] []]; try done.
Qed.

(** X7. In every world the manager can reach, [POST /sessions] with a
    number that passes validation and has no leading ["+"] answers 200 and
    leaves a session for that number whose status is ['initializing'] or
    ['authenticated']; a session that was logged out or had failed to
    authenticate is torn down and replaced by a new client with status
    ['initializing'] and no stored code.  With a number that passes
    validation and has a leading ["+"] it answers 500 "Invalid clientId.
    ..." and changes nothing: such a number never gets a session.  (The
    request is handled without other requests or events in between.) *)
Theorem X7_post_sessions_needs_a_number_without_plus (env : Env) (w : World)
  (number : string) :
  reachable env w →
  validatePhoneNumber number = true →
  match number with
  | String "+"%char _ =>
      post_sessions env (Some number) w
        = (Ok (failure 500 (error_message InvalidClientId)), w)
      ∧ has_session (mgr w) number = false
  | _ =>
      ∃ text w',
        post_sessions env (Some number) w = (Ok (success text), w')
        ∧ has_session (mgr w') number = true
        ∧ (getStatus (mgr w') number = "initializing"
           ∨ getStatus (mgr w') number = "authenticated")
        ∧ (has_session (mgr w) number = true →
           getStatus (mgr w) number = "logged_out"
           ∨ getStatus (mgr w) number = "auth_failure" →
           clients (mgr w') !! number
             = Some {| handle := next_handle w; clientId := number |}
           ∧ getStatus (mgr w') number = "initializing"
           ∧ getQRCode (mgr w') number = None)
  end.
Proof.
  intros Hr Hv. pose proof (reachable_sessions_have_status env w Hr) as Hinv.
  pose proof (reachable_clients_valid env w Hr number) as Hval.
  pose proof (valid_number_clientId number Hv) as Hid.
  assert (valid_clientId number = false →
          post_sessions env (Some number) w
            = (Ok (failure 500 (error_message InvalidClientId)), w)
          ∧ has_session (mgr w) number = false) as Hbad.
  { intros Hbad.
    assert (clients (mgr w) !! number = None) as Hc.
    { destruct (clients (mgr w) !! number) as [c|] eqn:Hc; [|done].
      specialize (Hval c eq_refl). congruence. }
    split; [|by apply has_session_false].
    unfold post_sessions. rewrite (valid_number_present _ Hv), Hv. cbn [negb].
    unfold bind at 1. unfold get_mgr at 1.
    rewrite (proj2 (has_session_false _ _) Hc).
    unfold bind, try_catch, ret.
    by rewrite (initializeClient_invalid _ _ Hc Hbad). }
  assert (valid_clientId number = true →
    ∃ text w',
      post_sessions env (Some number) w = (Ok (success text), w')
      ∧ has_session (mgr w') number = true
      ∧ (getStatus (mgr w') number = "initializing"
         ∨ getStatus (mgr w') number = "authenticated")
      ∧ (has_session (mgr w) number = true →
         getStatus (mgr w) number = "logged_out"
         ∨ getStatus (mgr w) number = "auth_failure" →
         clients (mgr w') !! number
           = Some {| handle := next_handle w; clientId := number |}
         ∧ getStatus (mgr w') number = "initializing"
         ∧ getQRCode (mgr w') number = None)) as Hgood.
  { intros Hok. clear Hbad Hid Hval.
    unfold post_sessions. rewrite (valid_number_present _ Hv), Hv. cbn [negb].
    unfold bind at 1. unfold get_mgr at 1.
    destruct (has_session (mgr w) number) eqn:Hs.
    - apply has_session_true in Hs as [c Hc].
      destruct (Hinv _ _ Hc) as (s & Hst & Hl).
      rewrite (getStatus_of_stored _ _ _ Hst Hl).
      apply lifecycle_status in Hl as [-> | [-> | [-> | ->]]]; cbn.
      + eexists _, w. split; [done|].
        split; [apply has_session_true; by eexists|].
        split; [left; by apply getStatus_of_stored;
                [|apply lifecycle_status; tauto]|].
        intros _ [?|?]; discriminate.
      + eexists _, w. split; [done|].
        split; [apply has_session_true; by eexists|].
        split; [right; by apply getStatus_of_stored;
                [|apply lifecycle_status; tauto]|].
        intros _ [?|?]; discriminate.
      + destruct (removeSession_live env number w c Hc)
          as (w1 & E1 & Hm & Hn & _).
        destruct (initializeClient_after_purge number w1 _ _ _ Hok Hm)
          as (w2 & E2 & Hc2 & Hs2 & Hq2 & _).
        unfold bind, try_catch, ret. rewrite E1, E2.
        eexists _, w2. split; [done|].
        split; [apply has_session_true; by eexists|].
        split; [by left|]. intros _ _. by rewrite <- Hn.
      + destruct (removeSession_live env number w c Hc)
          as (w1 & E1 & Hm & Hn & _).
        destruct (initializeClient_after_purge number w1 _ _ _ Hok Hm)
          as (w2 & E2 & Hc2 & Hs2 & Hq2 & _).
        unfold bind, try_catch, ret. rewrite E1, E2.
        eexists _, w2. split; [done|].
        split; [apply has_session_true; by eexists|].
        split; [by left|]. intros _ _. by rewrite <- Hn.
    - apply has_session_false in Hs.
      unfold bind, try_catch, ret. rewrite (initializeClient_new _ _ Hok Hs).
      eexists _, _. split; [done|]. cbn.
      split; [apply has_session_true; cbn; rewrite lookup_insert_eq;
              by eexists|].
      split; [left; by apply getStatus_insert|].
      intros [=]. }
  destruct number as [|c rest]; [by apply Hgood|].
  destruct (decide (c = "+"%char)) as [->|Hne]; [by apply Hbad|].
  assert (valid_clientId (String c rest) = true) as Hok.
  { rewrite Hid. destruct c as [[] [] [] [] [] [] [] []]; try done. }
  specialize (Hgood Hok).
  destruct c as [[] [] [] [] [] [] [] []]; try exact Hgood. done.
Qed.

(** X8. [DELETE /sessions/:token] answers 404 and changes nothing for a
    token without a session.  For a token with a session it always answers
    200, whatever fails during teardown or on disk: the session is gone
    afterwards and the 500 answer cannot occur.  (The request is handled
    without other requests or events in between.) *)
Theorem X8_delete_session_never_fails (env : Env) (w : World)
  (token : string) :
  (has_session (mgr w) token = false →
     delete_session env token w = (Ok (failure 404 "Session not found."), w))
  ∧ (has_session (mgr w) token = true →
     ∃ w', delete_session env token w
             = (Ok (success "Session removed successfully."), w')
       ∧ has_session (mgr w') token = false
       ∧ getStatus (mgr w') token = "unknown"
       ∧ getQRCode (mgr w') token = None
       ∧ inbox w' = inbox w ∧ next_handle w' = next_handle w).
Proof.
  unfold delete_session.
  unfold bind, get_mgr, try_catch, ret.
  split; intros Hs; rewrite Hs; cbn [negb]; [done|].
  apply has_session_true in Hs as [c Hc].
  destruct (removeSession_live env token w c Hc) as (w1 & E1 & Hm & Hn & Hi).
  rewrite E1.
  exists w1. split; [done|]. rewrite Hm.
  split; [apply has_session_deleted|].
  split; [apply getStatus_absent; cbn; apply lookup_delete_eq|].
  split; [apply getQRCode_absent; cbn; apply lookup_delete_eq|done].
Qed.

(** ** Answers of [GET /qr/:token] *)

Lemma sleep_exact (env : Env) (ms : nat) (w : World) :
  ∃ w1 es, sleep env ms w = (Ok tt, w1)
    ∧ actions w1 = (actions w ++ es)%list ∧ slept es = ms.
Proof.
  unfold sleep, bind, perform.
  set (w0 := with_trace (trace w ++ [(Sleep ms, mgr w)]) w).
  assert (actions w0 = (actions w ++ [Sleep ms])%list) as H0.
  { unfold actions, w0. cbn. by rewrite fmap_app. }
  destruct (inbox w0) as [|batch later] eqn:E.
  - exists w0, [Sleep ms]. split; [done|]. split; [done|]. cbn. lia.
  - destruct (deliver_responds env batch (with_inbox later w0)) as [[] Hok].
    destruct (deliver_quiet env batch (with_inbox later w0))
      as (es & He & Hs).
    destruct (deliver env batch (with_inbox later w0)) as [r w1].
    cbn in *. subst r.
    exists w1, (Sleep ms :: es). split; [done|].
    split; [|cbn; lia].
    rewrite He. change (actions (with_inbox later w0)) with (actions w0).
    rewrite H0, <- app_assoc. done.
Qed.

(** The loop returns what [getQRCode] gives at its end; it returns null
    only after sleeping through all the attempts it was given. *)
Lemma poll_qr_result (env : Env) (token : string) (remaining : nat)
  (w : World) :
  ∃ r w' es,
    poll_qr env token (getQRCode (mgr w) token) remaining w = (Ok r, w')
    ∧ r = getQRCode (mgr w') token
    ∧ actions w' = (actions w ++ es)%list
    ∧ (r = None → slept es = remaining * delay).
Proof.
  revert w. induction remaining as [|n IH]; intros w.
  - exists (getQRCode (mgr w) token), w, [].
    rewrite app_nil_r. by destruct (getQRCode (mgr w) token).
  - destruct (getQRCode (mgr w) token) as [code|] eqn:Hq; cbn [poll_qr].
    + exists (Some code), w, []. rewrite app_nil_r. by split.
    + destruct (sleep_exact env delay w) as (w1 & es1 & E1 & Ha1 & Hs1).
      destruct (IH w1) as (r & w' & es & E & Hr & Ha & Hs).
      unfold bind, get_mgr. rewrite E1, E.
      exists r, w', (es1 ++ es)%list. split; [done|]. split; [done|].
      split; [by rewrite Ha, Ha1, app_assoc|].
      intros Hn. rewrite slept_app, Hs1, (Hs Hn). lia.
Qed.

(** X9. [GET /qr/:token] always answers.  A 200 answer carries the code
    that [getQRCode] returns for the token when the handler ends; the
    "QR code not available yet" answer is given only when no code is
    stored at that point and the handler has slept through all ten
    one-second attempts. *)
Theorem X9_get_qr_answers_from_the_registry (env : Env) (token : string)
  (w : World) :
  ∃ r w' es,
    get_qr env token w = (Ok r, w')
    ∧ actions w' = (actions w ++ es)%list
    ∧ (∀ code, r = respond 200 [("qr", JStr code)] →
         getQRCode (mgr w') token = Some code)
    ∧ (r = qr_timeout →
         getQRCode (mgr w') token = None ∧ slept es = maxAttempts * delay).
Proof.
  unfold get_qr, bind at 1, get_mgr at 1.
  destruct (negb (has_session (mgr w) token)).
  { eexists _, w, []. rewrite app_nil_r. by repeat split. }
  destruct (String.eqb (getStatus (mgr w) token) "authenticated").
  { eexists _, w, []. rewrite app_nil_r. by repeat split. }
  set (reinit := if _ : bool then _ else _).
  assert (∃ o w1 es1, reinit w = (Ok o, w1)
            ∧ actions w1 = (actions w ++ es1)%list ∧ slept es1 = 0
            ∧ ∀ resp, o = Some resp → status resp = 500
                ∧ resp ≠ qr_timeout) as (o & w1 & es1 & E1 & Ha1 & Hs1 & Ho).
  { subst reinit. destruct (_ || _).
    - set (body := bind (removeSession env token)
                     (λ _, bind (initializeClient token) (λ _, ret None))).
      set (handler := λ err : error, _).
      assert (within 0 (try_catch body handler)) as Hw.
      { apply quiet_try_catch; [|intros; subst handler; quiet].
        apply quiet_bind; [apply removeSession_quiet|]. intros _.
        apply quiet_bind; [apply initializeClient_quiet|]. intros _.
        apply within_ret. }
      destruct (Hw w) as (es1 & Ha1 & Hs1).
      unfold try_catch in *. destruct (body w) as [[o|e] wb] eqn:Eb.
      + assert (o = None) as ->.
        { subst body. unfold bind, ret in Eb.
          destruct (removeSession env token w) as [[[]|?] ?]; [|done].
          destruct (initializeClient token _) as [[[]|?] ?]; congruence. }
        exists None, wb, es1. split; [done|]. split; [done|].
        split; [lia|]. intros ? [=].
      + subst handler. cbn in *.
        eexists _, _, es1. split; [done|]. split; [done|].
        split; [lia|]. intros resp [= <-]. by split.
    - exists None, w, []. rewrite app_nil_r. split; [done|].
      split; [done|]. split; [done|]. intros ? [=]. }
  unfold bind at 1. rewrite E1. destruct o as [resp|].
  - destruct (Ho resp eq_refl) as [H500 Hne].
    exists resp, w1, es1. split; [done|]. split; [done|].
    split; [|done]. intros code ->. discriminate.
  - unfold bind at 1, get_mgr at 1.
    destruct (poll_qr_result env token maxAttempts w1)
      as (r & w' & es & E & Hr & Ha & Hs).
    unfold bind at 1. rewrite E.
    destruct r as [code|]; eexists _, w', (es1 ++ es)%list;
      (split; [done|]); (split; [by rewrite Ha, Ha1, app_assoc|]).
    + split; [|intros [=]]. by intros code' [= <-].
    + split; [intros code [=]|]. intros _. split; [done|].
      rewrite slept_app, Hs1, (Hs eq_refl). lia.
Qed.

Lemma sleep_idle (env : Env) (ms : nat) (w : World) :
  inbox w = [] →
  sleep env ms w = (Ok tt, with_trace (trace w ++ [(Sleep ms, mgr w)]) w).
Proof. intros H. unfold sleep, bind, perform. cbn. by rewrite H. Qed.

Lemma poll_qr_idle (env : Env) (token : string) (remaining : nat)
  (w : World) :
  inbox w = [] →
  getQRCode (mgr w) token = None →
  ∃ w', poll_qr env token None remaining w = (Ok None, w')
    ∧ mgr w' = mgr w
    ∧ ∀ e, e ∈ actions w → e ∈ actions w'.
Proof.
  revert w. induction remaining as [|n IH]; intros w Hi Hq.
  - by exists w.
  - cbn [poll_qr]. unfold bind, get_mgr. rewrite (sleep_idle env _ _ Hi).
    cbn [mgr with_trace]. rewrite Hq.
    destruct (IH (with_trace (trace w ++ [(Sleep delay, mgr w)]) w))
      as (w' & E & Hm & Ha); [done|done|].
    exists w'. split; [done|]. split; [done|].
    intros e He. apply Ha. unfold actions in *. cbn. rewrite fmap_app.
    apply elem_of_app. by left.
Qed.

Lemma removeSession_destroys (env : Env) (token : string) (w : World)
  (c : Client) :
  clients (mgr w) !! token = Some c →
  ClientDestroy (handle c) ∈ actions (removeSession env token w).2.
Proof.
  intros H. unfold_manager. simpl. rewrite H. unfold actions.
  destruct (destroy_rejects env (handle c)); simpl;
    (case_bool_decide; [destruct (rm_throws env _)|]; simpl);
    rewrite !fmap_app; set_solver.
Qed.

Lemma initializeClient_keeps_actions (token : string) (w : World) (e : effect) :
  e ∈ actions w → e ∈ actions (initializeClient token w).2.
Proof.
  intros He. destruct (initializeClient_appends token w) as (new & Ht & _).
  unfold actions in *. rewrite Ht, fmap_app. apply elem_of_app. by left.
Qed.

(** X10. [GET /qr/:token] for a session that is logged out or failed to
    authenticate destroys its client and registers a new one with status
    ['initializing'].  A code still stored for the old session is not
    served: when no new code arrives the answer is the "not available yet"
    one.  (This is so for every token a client can be constructed for, and
    no other token has a session in a world the manager can reach; for
    another token the session is removed and the answer is 500 "Failed to
    reinitialize session.".) *)
Theorem X10_get_qr_replaces_a_dead_session (env : Env) (token : string)
  (w : World) (c : Client) :
  clients (mgr w) !! token = Some c →
  getStatus (mgr w) token = "logged_out"
  ∨ getStatus (mgr w) token = "auth_failure" →
  inbox w = [] →
  if valid_clientId token then
    ∃ w', get_qr env token w = (Ok qr_timeout, w')
      ∧ clients (mgr w') !! token
        = Some {| handle := next_handle w; clientId := token |}
      ∧ getStatus (mgr w') token = "initializing"
      ∧ getQRCode (mgr w') token = None
      ∧ ClientDestroy (handle c) ∈ actions w'
  else
    ∃ w', get_qr env token w
          = (Ok (respond 500
                   [("message", JStr "Failed to reinitialize session.")]), w')
      ∧ has_session (mgr w') token = false
      ∧ ClientDestroy (handle c) ∈ actions w'.
Proof.
  intros Hc Hs Hi.
  assert (has_session (mgr w) token = true) as Hh.
  { apply has_session_true. by eexists. }
  destruct (removeSession_live env token w c Hc)
    as (w1 & E1 & Hm & Hn & Hi1).
  assert (ClientDestroy (handle c) ∈ actions w1) as Hd1.
  { replace w1 with (removeSession env token w).2 by by rewrite E1.
    by apply removeSession_destroys. }
  assert (String.eqb (getStatus (mgr w) token) "authenticated" = false
          ∧ String.eqb (getStatus (mgr w) token) "logged_out"
            || String.eqb (getStatus (mgr w) token) "auth_failure" = true)
    as [Hna Hdead].
  { by destruct Hs as [-> | ->]. }
  destruct (valid_clientId token) eqn:Hv.
  - destruct (initializeClient_after_purge token w1 _ _ _ Hv Hm)
      as (w2 & E2 & Hc2 & Hs2 & Hq2 & Hi2).
    destruct (poll_qr_idle env token maxAttempts w2) as (w' & E & Hm' & Ha);
      [congruence|done|].
    assert (ClientDestroy (handle c) ∈ actions w2) as Hd.
    { replace w2 with (initializeClient token w1).2 by by rewrite E2.
      by apply initializeClient_keeps_actions. }
    exists w'. rewrite Hm', <- Hn. split; [|by auto].
    unfold get_qr, bind, get_mgr, try_catch, ret. rewrite Hh. cbn [negb].
    unfold bind, get_mgr in E.
    rewrite Hna, Hdead. by rewrite E1, E2, Hq2, E.
  - assert (clients (mgr w1) !! token = None) as Hc1.
    { rewrite Hm. apply lookup_delete_eq. }
    eexists. split.
    + unfold get_qr, bind, get_mgr, try_catch, ret. rewrite Hh. cbn [negb].
      rewrite Hna, Hdead. rewrite E1.
      rewrite (initializeClient_invalid _ _ Hc1 Hv).
      unfold console_error, perform. reflexivity.
    + cbn [mgr with_trace]. split; [by apply has_session_false|].
      unfold actions in *. cbn. rewrite fmap_app. apply elem_of_app. by left.
Qed.

(** X11. [GET /qr/:token] for an initializing session that has a code
    answers with that code at once: it does not sleep and changes
    nothing. *)
Theorem X11_stored_code_is_answered_at_once (env : Env) (token code : string)
  (w : World) :
  has_session (mgr w) token = true →
  getStatus (mgr w) token = "initializing" →
  getQRCode (mgr w) token = Some code →
  get_qr env token w = (Ok (respond 200 [("qr", JStr code)]), w).
Proof.
  intros Hh Hs Hq. unfold get_qr, bind, get_mgr, ret.
  rewrite Hh, Hs. cbn. by rewrite Hq.
Qed.

(** ** Sending over HTTP *)

(** X12. [POST /send-text] for an authenticated session, with a recipient
    that passes validation, hands exactly one text message to the client of
    the session, addressed to the number followed by ["@c.us"].  It answers
    200 when the client accepts the message; when the client rejects it,
    the rejection is logged and answered as 500 with the client's
    message. *)
Theorem X12_post_send_text_delivers (env : Env) (w : World) (c : Client)
  (token number message : string) :
  token ≠ "" → message ≠ "" →
  clients (mgr w) !! token = Some c →
  getStatus (mgr w) token = "authenticated" →
  validatePhoneNumber number = true →
  let r := post_send_text env (Some token) (Some number) (Some message) w in
  let sent := SendMessage (handle c) (number +:+ "@c.us") (Text message) in
  (send_rejects env (handle c) (number +:+ "@c.us") = None →
     r.1 = Ok (success "Message sent successfully.")
     ∧ actions r.2 = (actions w ++ [sent])%list)
  ∧ (∀ detail, send_rejects env (handle c) (number +:+ "@c.us") = Some detail →
     r.1 = Ok (failure 500 detail)
     ∧ actions r.2 =
       (actions w ++ [sent; ConsoleError ("Error sending message: "
                                          +:+ detail)])%list).
Proof.
  intros Ht Hmsg Hc Hs Hv r sent.
  assert (chatId number = number +:+ "@c.us") as Hchat.
  { apply chatId_bare. by apply (valid_number_no_at "c.us"). }
  assert (r =
    match send_rejects env (handle c) (number +:+ "@c.us") with
    | None =>
        (Ok (success "Message sent successfully."),
         with_trace (trace w ++ [(sent, mgr w)]) w)
    | Some detail =>
        (Ok (failure 500 detail),
         with_trace ((trace w ++ [(sent, mgr w)])
                     ++ [(ConsoleError ("Error sending message: " +:+ detail),
                          mgr w)]) w)
    end) as ->.
  { subst r sent. unfold post_send_text.
    rewrite (token_present _ Ht), (token_present _ Hmsg),
      (valid_number_present _ Hv).
    unfold send_guard, bind at 1, get_mgr at 1.
    replace (has_session (mgr w) token) with true
      by (symmetry; apply has_session_true; by eexists).
    rewrite Hv, Hs. cbn [negb].
    change (String.eqb "authenticated" "initializing") with false.
    change (String.eqb "authenticated" "authenticated") with true.
    cbn [negb].
    unfold try_catch, bind. rewrite (sendText_sends env w c) by done.
    rewrite Hchat. by destruct (send_rejects _ _ _). }
  split.
  - intros ->. split; [done|]. unfold actions. cbn. by rewrite fmap_app.
  - intros detail ->. split; [done|].
    unfold actions. cbn. by rewrite !fmap_app, <- app_assoc.
Qed.

(** X13. Whatever the request, [POST /send-text] and
    [POST /send-image-url] for a token whose status is not
    ['authenticated'] answer 400, 404 or 503 and do nothing else: nothing
    is downloaded, nothing is handed to a client, nothing is logged. *)
Theorem X13_send_endpoints_are_gated (env : Env) (w : World)
  (token number message imageUrl caption : option string) :
  (∀ t, present token = Some t → getStatus (mgr w) t ≠ "authenticated") →
  ∃ r1 r2,
    post_send_text env token number message w = (Ok r1, w)
    ∧ post_send_image_url env token number imageUrl caption w = (Ok r2, w)
    ∧ status r1 ∈ [400; 404; 503]
    ∧ status r2 ∈ [400; 404; 503].
Proof.
  intros Hs.
  assert (∀ t n send, present token = Some t →
            ∃ r, send_guard t n send w = (Ok r, w)
                 ∧ status r ∈ [400; 404; 503]) as Hguard.
  { intros t n send Ht. unfold send_guard, bind, get_mgr, ret.
    destruct (has_session (mgr w) t); cbn [negb];
      [|eexists; split; [done|]; cbn; rewrite !elem_of_cons; auto].
    destruct (validatePhoneNumber n); cbn [negb];
      [|eexists; split; [done|]; cbn; rewrite !elem_of_cons; auto].
    destruct (String.eqb (getStatus (mgr w) t) "initializing");
      [eexists; split; [done|]; cbn; rewrite !elem_of_cons; auto|].
    rewrite (not_authenticated _ (Hs t Ht)).
    eexists; split; [done|]; cbn; rewrite !elem_of_cons; auto. }
  unfold post_send_text, post_send_image_url.
  destruct (present token) as [t|];
    [|eexists _, _; repeat split; cbn; rewrite !elem_of_cons; auto].
  destruct (present number) as [n|];
    [|eexists _, _; repeat split; cbn; rewrite !elem_of_cons; auto].
  destruct (present message) as [msg|], (present imageUrl) as [url|].
  - destruct (Hguard t n (try_catch
        (bind (sendText env t n msg) (λ _, ret (respond 200
           [("success", JBool true);
            ("message", JStr "Message sent successfully.")])))
        (λ err, bind (console_error ("Error sending message: "
                                     +:+ error_message err))
                  (λ _, ret (failure 500 (error_message err))))) eq_refl)
      as (r1 & -> & H1).
    destruct (Hguard t n (try_catch
        (bind (sendImage env t n url caption) (λ _, ret (respond 200
           [("success", JBool true);
            ("message", JStr "Image sent successfully.")])))
        (λ err, bind (console_error ("Error sending image: "
                                     +:+ error_message err))
                  (λ _, ret (failure 500 (error_message err))))) eq_refl)
      as (r2 & -> & H2).
    by exists r1, r2.
  - destruct (Hguard t n (try_catch
        (bind (sendText env t n msg) (λ _, ret (respond 200
           [("success", JBool true);
            ("message", JStr "Message sent successfully.")])))
        (λ err, bind (console_error ("Error sending message: "
                                     +:+ error_message err))
                  (λ _, ret (failure 500 (error_message err))))) eq_refl)
      as (r1 & -> & H1).
    eexists r1, _. repeat split; [done|]. cbn; rewrite !elem_of_cons; auto.
  - destruct (Hguard t n (try_catch
        (bind (sendImage env t n url caption) (λ _, ret (respond 200
           [("success", JBool true);
            ("message", JStr "Image sent successfully.")])))
        (λ err, bind (console_error ("Error sending image: "
                                     +:+ error_message err))
                  (λ _, ret (failure 500 (error_message err))))) eq_refl)
      as (r2 & -> & H2).
    eexists _, r2. repeat split; [|done]. cbn; rewrite !elem_of_cons; auto.
  - eexists _, _. repeat split; cbn; rewrite !elem_of_cons; auto.
Qed.

(** ** File names of downloaded media *)

Lemma includes_query_cons (c : ascii) (s : string) :
  c ≠ "?"%char → includes "?" (String c s) = includes "?" s.
Proof.
  intros Hne. apply (includes_cons_ne "?" c ""). congruence.
Qed.

Lemma before_query_clean (s : string) : includes "?" (before_query s) = false.
Proof.
  induction s as [|c s IH]; [done|]. cbn [before_query].
  destruct (Ascii.eqb_spec c "?"); [done|]. by rewrite includes_query_cons.
Qed.

Lemma before_query_app (name rest : string) :
  includes "?" name = false →
  before_query (name +:+ String "?" rest) = name.
Proof.
  induction name as [|c name IH]; intros H; [done|].
  simpl. destruct (Ascii.eqb_spec c "?") as [->|Hne].
  - cbn in H. by destruct name.
  - rewrite includes_query_cons in H by done. f_equal. by apply IH.
Qed.

Lemma or_else_truthy (s fallback : string) :
  fallback ≠ "" → or_else s fallback ≠ "".
Proof. intros H. unfold or_else. by destruct s. Qed.

(** X14. The media built from a download always has a file name and a
    MIME type: the name is what [path.basename] gives up to its first
    ["?"], so it never contains a query string, and ["image.jpg"] when
    that is empty; the type is ["image/jpeg"] when the response names
    none. *)
Theorem X14_media_has_a_clean_filename (basename base64 : string → string)
  (imageUrl bytes : string) (contentType : option string) :
  let media := build_media basename base64 imageUrl contentType bytes in
  filename media ≠ ""
  ∧ includes "?" (filename media) = false
  ∧ mimetype media ≠ ""
  ∧ (∀ name query,
       basename imageUrl = name +:+ String "?" query →
       includes "?" name = false →
       filename media = if truthy name then name else "image.jpg")
  ∧ (before_query (basename imageUrl) = "" → filename media = "image.jpg")
  ∧ (present contentType = None → mimetype media = "image/jpeg").
Proof.
  cbn. split; [by apply or_else_truthy|]. split.
  { unfold or_else. destruct (truthy _); [apply before_query_clean|done]. }
  split; [by apply or_else_truthy|]. split.
  { intros name query -> Hn. by rewrite before_query_app. }
  split; [by intros ->|].
  destruct contentType as [[|c s]|]; cbn; [done| |done].
  discriminate.
Qed.

(** ** The awaited pairing code *)

Lemma first_code_elem (token code : string) (slice : list emission) :
  first_code token slice = Some code → ("code", token, code) ∈ slice.
Proof.
  induction slice as [|[[event t] arg] slice IH]; [done|].
  cbn [first_code onCode].
  destruct (String.eqb event "code" && String.eqb t token) eqn:E.
  - intros [= ->]. apply andb_true_iff in E as [He Ht].
    apply String.eqb_eq in He, Ht. subst. by left.
  - intros H. right. by apply IH.
Qed.

Lemma first_code_other (token : string) (slice : list emission) :
  Forall (λ e : emission, e.1.2 ≠ token) slice →
  first_code token slice = None.
Proof.
  induction 1 as [|[[event t] arg] slice Hne _ IH]; [done|].
  cbn [first_code onCode]. cbn in Hne.
  apply String.eqb_neq in Hne. by rewrite Hne, andb_false_r.
Qed.

(** X15. The promise [POST /pair] awaits resolves only with a code that
    the manager emitted as a ['code'] event for the awaited token;
    whatever is emitted for other tokens leaves it pending. *)
Theorem X15_pairing_code_belongs_to_the_token (token : string)
  (timeline : list (list emission)) :
  (∀ code, await_code token timeline = Some code →
     ∃ slice, slice ∈ timeline ∧ ("code", token, code) ∈ slice)
  ∧ (Forall (Forall (λ e : emission, e.1.2 ≠ token)) timeline →
     await_code token timeline = None).
Proof.
  split.
  - intros code. induction timeline as [|slice later IH]; [done|].
    cbn [await_code]. destruct (first_code token slice) as [c|] eqn:E.
    + intros [= ->]. exists slice. split; [by left|by apply first_code_elem].
    + intros H. destruct (IH H) as (s & Hs & Hin). exists s. split; [by right|done].
  - intros H. apply await_code_pending.
    eapply Forall_impl; [exact H|]. apply first_code_other.
Qed.

(** ** Accepted phone numbers *)

Lemma national_length (s : string) :
  national s = true → 2 ≤ String.length s ≤ 15.
Proof.
  destruct s as [|c s]; [done|]. unfold national.
  rewrite !andb_true_iff, !Nat.leb_le. cbn [String.length]. lia.
Qed.

(** X16. A number accepted by [validatePhoneNumber] has between 2 and 16
    characters, contains no ["@"], and is therefore always sent as the
    number followed by ["@c.us"]; the recipient id so formed is itself not
    an acceptable number. *)
Theorem X16_accepted_numbers_are_bare (number : string) :
  validatePhoneNumber number = true →
  2 ≤ String.length number ≤ 16
  ∧ includes "@" number = false
  ∧ chatId number = number +:+ "@c.us"
  ∧ validatePhoneNumber (chatId number) = false.
Proof.
  intros Hv.
  assert (chatId number = number +:+ "@c.us") as Hc.
  { apply chatId_bare. by apply (valid_number_no_at "c.us"). }
  split; [|split; [by apply (valid_number_no_at "")|split; [done|]]].
  - unfold validatePhoneNumber in Hv. destruct number as [|c s]; [done|].
    destruct (decide (c = "+"%char)) as [->|Hne].
    + apply national_length in Hv. cbn [String.length]. lia.
    + assert (national (String c s) = true) as Hn.
      { destruct c as [[] [] [] [] [] [] [] []]; try done. }
      apply national_length in Hn. lia.
  - apply suffixed_number_invalid. rewrite Hc. apply includes_app.
Qed.

(** ** The first index.js *)


Lemma single_client_code_origin (events : list client_event) (code : string) :
  SingleClient.qrCode
    (foldl (λ g ev, SingleClient.on ev g) SingleClient.initial events)
    = Some code →
  Qr code ∈ events.
Proof.
  induction events as [|ev events IH] using rev_ind; [done|].
  rewrite foldl_app. cbn [foldl]. rewrite elem_of_app.
  destruct ev; cbn; try done; try (intros H; left; by apply IH).
  intros [= ->]. right. by left.
Qed.

(** X18. In the single-client server, after any sequence of client events
    [GET /qr] answers with a code only while [isAuthenticated] is false,
    and the code is one the client emitted; a successful [POST /logout]
    resets both globals, so that [GET /qr] answers 404 and sends are
    refused, and a failed one changes nothing. *)
Theorem X18_single_client_code_and_logout (events : list client_event)
  (g : SingleClient.Globals) :
  let reached :=
    foldl (λ g ev, SingleClient.on ev g) SingleClient.initial events in
  (∀ code, SingleClient.get_qr reached = respond 200 [("qr", JStr code)] →
     SingleClient.isAuthenticated reached = false ∧ Qr code ∈ events)
  ∧ (SingleClient.post_logout true g).2 = g
  ∧ status (SingleClient.get_qr (SingleClient.post_logout false g).2) = 404
  ∧ SingleClient.isAuthenticated (SingleClient.post_logout false g).2 = false.
Proof.
  intros reached. split; [|done].
  intros code. unfold SingleClient.get_qr.
  destruct (SingleClient.isAuthenticated reached); [done|].
  destruct (SingleClient.qrCode reached) as [q|] eqn:Hq; [|done].
  cbn [present]. destruct (truthy q); [|done].
  intros [= ->]. split; [done|]. by apply single_client_code_origin.
Qed.

(** ** The oldest [removeSession] *)

(** X19. The oldest [removeSession] lets failures through.  When
    [client.logout()] rejects, the error is rethrown and the session stays
    registered, its client not destroyed.  When the logout succeeds the
    three entries of the token are deleted, and a failure to remove an
    existing directory of the token is rethrown after that, leaving the
    directory on disk. *)
Theorem X19_oldest_removal_propagates_failures (env : Env) (w : World)
  (token : string) (c : Client) :
  clients (mgr w) !! token = Some c →
  let r := removeSession_uncaught env token w in
  (∀ detail, logout_rejects env (handle c) = Some detail →
     r.1 = Err (External detail) ∧ mgr r.2 = mgr w
     ∧ actions r.2 = (actions w ++ [ClientLogout (handle c)])%list)
  ∧ (logout_rejects env (handle c) = None →
     clients (mgr r.2) !! token = None
     ∧ statuses (mgr r.2) !! token = None
     ∧ qrCodes (mgr r.2) !! token = None
     ∧ ClientDestroy (handle c) ∈ actions r.2
     ∧ (∀ detail, authDir env token ∈ authDirs w →
          rm_throws env (authDir env token) = Some detail →
          r.1 = Err (External detail) ∧ authDir env token ∈ authDirs r.2)
     ∧ (authDir env token ∉ authDirs w
        ∨ rm_throws env (authDir env token) = None →
        r.1 = Ok tt ∧ authDir env token ∉ authDirs r.2)).
Proof.
  intros Hc r. subst r. split.
  - intros detail Hl. unfold_manager. simpl. rewrite Hc, Hl. simpl.
    split; [done|]. split; [done|]. unfold actions. cbn. by rewrite fmap_app.
  - intros Hl. unfold_manager. simpl. rewrite Hc, Hl. simpl.
    case_bool_decide as Hin; simpl.
    + destruct (rm_throws env (authDir env token)) as [d|] eqn:Hrm; simpl;
        rewrite ?lookup_delete_eq;
        (split; [done|]); (split; [done|]); (split; [done|]);
        (split; [unfold actions; cbn; rewrite !fmap_app; set_solver|]).
      * split; [by intros detail _ [= ->]|]. by intros [?|?].
      * split; [by intros detail _ ?|]. intros _. split; [done|].
        intros [_ Hn]%elem_of_difference. by apply Hn, elem_of_singleton.
    + rewrite ?lookup_delete_eq.
      split; [done|]. split; [done|]. split; [done|].
      split; [unfold actions; cbn; rewrite !fmap_app; set_solver|].
      split; [by intros detail ?|]. by intros _.
Qed.

(** ** The status endpoint *)

(** X23. In every world the manager can reach, [GET /status/:token]
    changes nothing; it answers 404 for a token without a session, and for
    a token with a session it reports the stored status, which is one of
    the four, with [authenticated] true exactly for ['authenticated']. *)
Theorem X23_status_endpoint_reports_the_stored_status (env : Env) (w : World)
  (token : string) :
  reachable env w →
  ∃ r, get_status token w = (Ok r, w)
    ∧ (has_session (mgr w) token = false → status r = 404)
    ∧ (has_session (mgr w) token = true →
       ∃ s, statuses (mgr w) !! token = Some s
         ∧ s ∈ lifecycle_statuses
         ∧ r = respond 200
                 [("authenticated", JBool (String.eqb s "authenticated"));
                  ("status", JStr s)]).
Proof.
  intros Hr. pose proof (reachable_sessions_have_status env w Hr) as Hinv.
  unfold get_status, bind, get_mgr, ret.
  destruct (has_session (mgr w) token) eqn:Hs; cbn [negb].
  - eexists. split; [done|]. split; [done|]. intros _.
    apply has_session_true in Hs as [c Hc].
    destruct (Hinv _ _ Hc) as (s & Hst & Hl).
    exists s. by rewrite (getStatus_of_stored _ _ _ Hst Hl).
  - eexists. split; [done|]. split; [done|]. done.
Qed.


(** ** The further properties at concrete inputs *)

Lemma reachable_step (env : Env) (w w' : World) :
  reachable env w → step env w w' → reachable env w'.
Proof.
  intros (dirs & events & Hrtc) Hstep. exists dirs, events.
  by eapply rtc_r.
Qed.

Lemma reachable_boot (env : Env) (dirs : gset string)
  (events : list (list (string * client_event))) :
  reachable env (boot dirs events).
Proof. exists dirs, events. apply rtc_refl. Qed.

(** A session for "A" that has become ready. *)
Lemma reachable_ready_session :
  reachable calm (run [initializeClient "A"; on_event calm "A" Ready] (boot ∅ [])).
Proof.
  apply (reachable_step calm (initializeClient "A" (boot ∅ [])).2).
  - apply (reachable_step calm (boot ∅ [])); [apply reachable_boot|].
    apply step_initialize.
  - apply (step_event calm "A" Ready). reflexivity.
Qed.

Lemma X1_witness :
  NoDup (sessions_listing
           (mgr (run [initializeClient "A"; on_event calm "A" Ready]
                   (boot ∅ [])))).*1.
Proof.
  exact (proj1 (X1_listing_shows_lifecycle_statuses calm _
                  reachable_ready_session)).
Defined.

Lemma X2_witness :
  clientId {| handle := 0; clientId := "A" |} = "A".
Proof.
  exact (proj1 (X2_clients_are_not_shared calm
    (run [initializeClient "A"; on_event calm "A" Ready] (boot ∅ []))
    "A" "A" {| handle := 0; clientId := "A" |}
    {| handle := 0; clientId := "A" |}
    reachable_ready_session eq_refl eq_refl)).
Defined.

Lemma X3_witness :
  let w := run [initializeClient "A"; on_event calm "A" Ready] (boot ∅ []) in
  actions (sendText calm "A" "15550001111" "hi" w).2 =
    (actions w ++ [SendMessage 0 (chatId "15550001111") (Text "hi")])%list.
Proof.
  exact (proj1 (X3_sendText_delivers_once calm
    (run [initializeClient "A"; on_event calm "A" Ready] (boot ∅ []))
    {| handle := 0; clientId := "A" |} "A" "15550001111" "hi"
    eq_refl eq_refl)).
Defined.

Lemma X4_witness :
  let w := run [initializeClient "A"; on_event calm "A" Ready] (boot ∅ []) in
  actions (sendImage calm "A" "15550001111" "https://example.org/a.png"
             None w).2 =
    (actions w ++ [HttpGet "https://example.org/a.png";
                   SendMessage 0 (chatId "15550001111")
                     (Media "https://example.org/a.png" "")])%list.
Proof.
  exact (proj1 (proj2 (X4_sendImage_downloads_before_sending calm
    (run [initializeClient "A"; on_event calm "A" Ready] (boot ∅ []))
    {| handle := 0; clientId := "A" |} "A" "15550001111"
    "https://example.org/a.png" None eq_refl eq_refl) eq_refl)).
Defined.


Lemma X6_witness :
  let w := run [initializeClient "A"] (boot ∅ []) in
  ∃ rest,
    trace (removeSession calm "A" w).2 =
      (trace w ++ (ClientDestroy 0, mgr w) :: rest)%list.
Proof.
  destruct (X6_teardown_precedes_purge calm
    (run [initializeClient "A"] (boot ∅ [])) "A"
    {| handle := 0; clientId := "A" |} eq_refl) as (rest & H & _).
  by exists rest.
Defined.

Lemma X7_witness :
  (∃ text w',
     post_sessions calm (Some "15551234567") (boot ∅ [])
       = (Ok (success text), w')
     ∧ has_session (mgr w') "15551234567" = true)
  ∧ post_sessions calm (Some "+15551234567") (boot ∅ [])
    = (Ok (failure 500
         "Invalid clientId. Only alphanumeric characters, underscores and hyphens are allowed."),
       boot ∅ []).
Proof.
  split.
  - destruct (X7_post_sessions_needs_a_number_without_plus calm (boot ∅ [])
      "15551234567" (reachable_boot calm ∅ []) eq_refl)
      as (text & w' & H1 & H2 & _).
    exists text, w'. split; [exact H1|exact H2].
  - exact (proj1 (X7_post_sessions_needs_a_number_without_plus calm
             (boot ∅ []) "+15551234567" (reachable_boot calm ∅ []) eq_refl)).
Defined.

(** Teardown and directory removal both fail, and the answer is 200. *)
Lemma X8_witness :
  let w := run [initializeClient "A"] (boot {[authDir stuck "A"]} []) in
  ∃ w', delete_session stuck "A" w
          = (Ok (success "Session removed successfully."), w')
        ∧ has_session (mgr w') "A" = false.
Proof.
  set (w := run [initializeClient "A"] (boot {[authDir stuck "A"]} [])).
  assert (has_session (mgr w) "A" = true) as Hs by (vm_compute; reflexivity).
  destruct (proj2 (X8_delete_session_never_fails stuck w "A") Hs)
    as (w' & H1 & H2 & _).
  exists w'. split; [exact H1|exact H2].
Defined.

(** A logged-out session that still holds the code of the C3 run. *)
Lemma X10_witness :
  let w := run [initializeClient "T3"; on_event calm "T3" (Qr "2@Yx8");
                on_event calm "T3" (Disconnected "LOGOUT")] (boot ∅ []) in
  getQRCode (mgr w) "T3" = Some "2@Yx8"
  ∧ ∃ w', get_qr calm "T3" w = (Ok qr_timeout, w')
          ∧ getQRCode (mgr w') "T3" = None.
Proof.
  set (w := run [initializeClient "T3"; on_event calm "T3" (Qr "2@Yx8");
                 on_event calm "T3" (Disconnected "LOGOUT")] (boot ∅ [])).
  assert (getQRCode (mgr w) "T3" = Some "2@Yx8") as Hq
    by (vm_compute; reflexivity).
  assert (clients (mgr w) !! "T3" = Some {| handle := 0; clientId := "T3" |})
    as Hc by (vm_compute; reflexivity).
  assert (getStatus (mgr w) "T3" = "logged_out") as Hs
    by (vm_compute; reflexivity).
  assert (inbox w = []) as Hi by (vm_compute; reflexivity).
  split; [exact Hq|].
  destruct (X10_get_qr_replaces_a_dead_session calm "T3" w _ Hc
              (or_introl Hs) Hi) as (w' & H1 & _ & _ & H4 & _).
  exists w'. split; [exact H1|exact H4].
Defined.

Lemma X11_witness :
  let w := run [initializeClient "A"; on_event calm "A" (Qr "2@Yx8")] (boot ∅ []) in
  get_qr calm "A" w = (Ok (respond 200 [("qr", JStr "2@Yx8")]), w).
Proof.
  set (w := run [initializeClient "A"; on_event calm "A" (Qr "2@Yx8")] (boot ∅ [])).
  assert (has_session (mgr w) "A" = true) as Hh by (vm_compute; reflexivity).
  assert (getStatus (mgr w) "A" = "initializing") as Hs
    by (vm_compute; reflexivity).
  assert (getQRCode (mgr w) "A" = Some "2@Yx8") as Hq
    by (vm_compute; reflexivity).
  exact (X11_stored_code_is_answered_at_once calm "A" "2@Yx8" w Hh Hs Hq).
Defined.

Lemma X12_witness :
  let w := run [initializeClient "A"; on_event calm "A" Ready] (boot ∅ []) in
  (post_send_text calm (Some "A") (Some "15550001111") (Some "hi") w).1
    = Ok (success "Message sent successfully.").
Proof.
  set (w := run [initializeClient "A"; on_event calm "A" Ready] (boot ∅ [])).
  assert ("A" ≠ "") as Ht by discriminate.
  assert ("hi" ≠ "") as Hm by discriminate.
  assert (clients (mgr w) !! "A" = Some {| handle := 0; clientId := "A" |})
    as Hc by (vm_compute; reflexivity).
  assert (getStatus (mgr w) "A" = "authenticated") as Hs
    by (vm_compute; reflexivity).
  assert (validatePhoneNumber "15550001111" = true) as Hv
    by (vm_compute; reflexivity).
  assert (send_rejects calm 0 ("15550001111" +:+ "@c.us") = None) as Hr
    by reflexivity.
  exact (proj1 (proj1 (X12_post_send_text_delivers calm w _ "A"
                         "15550001111" "hi" Ht Hm Hc Hs Hv) Hr)).
Defined.

Lemma X13_witness :
  let w := run [initializeClient "A"] (boot ∅ []) in
  ∃ r1, post_send_text calm (Some "A") (Some "15550001111") (Some "hi") w
        = (Ok r1, w).
Proof.
  destruct (X13_send_endpoints_are_gated calm
    (run [initializeClient "A"] (boot ∅ []))
    (Some "A") (Some "15550001111") (Some "hi")
    (Some "https://example.org/a.png") None) as (r1 & r2 & H1 & _).
  - intros t [= <-]. vm_compute. discriminate.
  - by exists r1.
Defined.

Lemma X16_witness : chatId "+15551234567" = "+15551234567@c.us".
Proof.
  assert (validatePhoneNumber "+15551234567" = true) as Hv
    by (vm_compute; reflexivity).
  exact (proj1 (proj2 (proj2
    (X16_accepted_numbers_are_bare "+15551234567" Hv)))).
Defined.

Lemma X19_witness :
  (removeSession_uncaught stuck "T" (run [initializeClient "T"] (boot ∅ []))).1
    = Err (External "Protocol error: Target closed").
Proof.
  set (w := run [initializeClient "T"] (boot ∅ [])).
  assert (clients (mgr w) !! "T" = Some {| handle := 0; clientId := "T" |})
    as Hc by (vm_compute; reflexivity).
  exact (proj1 (proj1 (X19_oldest_removal_propagates_failures stuck w "T" _
                         Hc) "Protocol error: Target closed" eq_refl)).
Defined.

(** A code, then readiness: the code is gone once authenticated. *)
Lemma orderly_witness :
  getQRCode
    (mgr (run [initializeClient "A"; on_event calm "A" (Qr "2@Yx8");
               on_event calm "A" Ready] (boot ∅ []))) "A" = None.
Proof.
  apply (orderly_runs_keep_codes_to_initializing calm ∅ []).
  - eapply rtc_l; [apply (orderly_initialize calm "A")|].
    eapply rtc_l; [apply (orderly_event calm "A" (Qr "2@Yx8"))|].
    + exists {| handle := 0; clientId := "A" |}. vm_compute. reflexivity.
    + vm_compute. reflexivity.
    + eapply rtc_l; [apply (orderly_event calm "A" Ready)|apply rtc_refl].
      * exists {| handle := 0; clientId := "A" |}. vm_compute. reflexivity.
      * vm_compute. reflexivity.
  - vm_compute. discriminate.
Defined.

Lemma X23_witness :
  ∃ r, get_status "A"
         (run [initializeClient "A"; on_event calm "A" Ready] (boot ∅ []))
       = (Ok r, run [initializeClient "A"; on_event calm "A" Ready] (boot ∅ [])).
Proof.
  destruct (X23_status_endpoint_reports_the_stored_status calm
    (run [initializeClient "A"; on_event calm "A" Ready] (boot ∅ [])) "A"
    reachable_ready_session) as (r & H & _).
  exists r. exact H.
Defined.
